(** * ScaleMart: flash-sale order admission

    A shallow embedding of the order-admission core of the ScaleMart
    backend:

    - [backend/server.py]: [check_rate_limit], [flash_buy],
      [process_order_task] and the request model [FlashBuyRequest];
    - [backend/server_enhanced.py]: the second copy of [check_rate_limit]
      (same body), its own [process_order_task] and its validated
      [FlashBuyRequest];
    - [backend/additional_endpoints.py]: [cancel_order].

    The handlers are coroutines over two shared stores: a Redis instance
    (stock counters, product blobs, rate-limit counters with a time to
    live) and the Mongo collection [db.orders].  They are embedded as
    computations in a state-and-exception monad over an explicit store; an
    exception leaves the store as it was when it was raised, exactly as a
    Python exception leaves Redis and Mongo.  Readings of the wall clock
    are arguments, in microseconds: [now] is the time at which the Redis
    commands of a handler run, and an order takes one reading for each of
    its two time stamps.  Handlers are composed sequentially: one handler
    runs to completion before the next starts.

    The two stores are outside the repository.  Redis is modelled by the
    commands the handlers issue (GET, INCRBY, DECRBY, EXPIRE) with their
    documented behaviour on absent, volatile and ill-typed keys; its
    counters are signed 64-bit integers, and a command that would leave
    that range fails.  Mongo is modelled by [find_one], [update_one] and
    [insert_one] on a list of documents; [insert_one] adds the [_id] of
    the stored document to the dict it is given.  Celery's [delay]
    serialises its argument as JSON, which fails on such an [_id], and
    otherwise appends the message to a list of queued messages. *)

From stdpp Require Import base strings gmap list sorting.
From Stdlib Require Import ZArith Lia.

Local Open Scope Z_scope.

(** ** Python floats

    Prices are Python floats.  No property below depends on their
    arithmetic, so the operations [flash_buy] uses are an interface. *)

Class FloatOps (float : Type) : Type := {
  float_of_int : Z → float;
  fmul : float → float → float;
  fsub : float → float → float;
  fdiv : float → float → float;
  round2 : float → float    (* round(x, 2) *)
}.

(** ** Exceptions *)

Inductive Detail : Type :=
  | TooManyRequests                    (* "Too many requests. ..." *)
  | ProductNotFound                    (* "Product not found" *)
  | OutOfStockDetail                   (* "Out of stock!" *)
  | OrderNotFound                      (* "Order not found" *)
  | NotAuthorized                      (* "Not authorized to cancel this order" *)
  | CannotCancel (status : string)     (* "Cannot cancel order with status '...'" *)
  | CancelWindowOver.                  (* "Order can only be cancelled within 5 minutes ..." *)

Inductive Exception : Type :=
  | HTTPException (status_code : Z) (detail : Detail)
  | RequestValidationError   (* the request model rejects the body: a 422 *)
  | Uncaught.                (* redis ResponseError, kombu EncodeError, ValueError,
                                TypeError: a 500 *)

(** The error names of the specification. *)
Definition RateLimited : Exception := HTTPException 429 TooManyRequests.
Definition UnknownProduct : Exception := HTTPException 404 ProductNotFound.
Definition OutOfStock : Exception := HTTPException 400 OutOfStockDetail.
Definition NotFound : Exception := HTTPException 404 OrderNotFound.
Definition Forbidden : Exception := HTTPException 403 NotAuthorized.
Definition InvalidState (st : string) : Exception := HTTPException 400 (CannotCancel st).
Definition WindowExpired : Exception := HTTPException 400 CancelWindowOver.

Inductive Result (A : Type) : Type :=
  | Ok (a : A)
  | Raise (e : Exception).
Arguments Ok {A} a.
Arguments Raise {A} e.

Definition is_ok {A} (r : Result A) : bool :=
  match r with Ok _ => true | Raise _ => false end.

Section Data.

Context {float : Type}.

(** ** Data model *)

(** [class User] (the fields the handlers read). *)
Record User : Type := mkUser {
  u_id : string;
  u_email : string;
  u_name : string
}.

(** [class Product], as stored in Redis under [product:{id}]. *)
Record Product : Type := mkProduct {
  p_id : string;
  p_name : string;
  p_description : string;
  p_price : float;
  p_image_url : string;
  p_stock : Z;
  p_flash_sale : bool;
  p_discount_percent : option Z
}.

(** [class FlashBuyRequest]. *)
Record FlashBuyRequest : Type := mkFlashBuyRequest {
  product_id : string;
  quantity : Z
}.

(** A document of [db.orders].  The collection has no schema: [updated_at]
    is written by server.py only, [can_cancel] by server_enhanced.py only
    and [cancelled_at] by [cancel_order] only, hence the options.  Times
    are microseconds since the epoch (the resolution of [datetime]); the
    ISO string a time is stored as is read back by [fromisoformat]. *)
Record Order : Type := mkOrder {
  o_id : string;
  o_user_id : string;
  o_user_email : string;
  o_product_id : string;
  o_product_name : string;
  o_quantity : Z;
  o_total_price : float;
  o_status : string;
  o_created_at : Z;
  o_updated_at : option Z;
  o_can_cancel : option bool;
  o_cancelled_at : option Z
}.

(** [class OrderStatus], the response of [flash_buy]. *)
Record OrderStatus : Type := mkOrderStatus {
  os_order_id : string;
  os_status : string
}.

(** ** The stores *)

(** A Redis value: either a string that parses as an integer, or the JSON
    blob of a product. *)
Inductive rvalue : Type :=
  | RInt (n : Z)
  | RJson (p : Product).

(** A Redis key holds a value and, when it is volatile, the time at which
    it expires. *)
Record entry : Type := mkEntry {
  e_val : rvalue;
  e_deadline : option Z
}.

Record State : Type := mkState {
  redis : gmap string entry;
  orders : list Order;        (* db.orders, in insertion order *)
  queue : list Order          (* messages published for process_order_task *)
}.

(** A Python dict of an order as the handler passes it around: the fields
    of the order and, once [insert_one] has had the dict, the ObjectId
    that pymongo adds to it under [_id]. *)
Record OrderDict : Type := mkOrderDict {
  od_order : Order;
  od_has_object_id : bool
}.

End Data.

Arguments Product float : clear implicits.
Arguments Order float : clear implicits.
Arguments rvalue float : clear implicits.
Arguments entry float : clear implicits.
Arguments State float : clear implicits.
Arguments OrderDict float : clear implicits.

Section ScaleMart.

Context `{FloatOps float}.

(** ** The state-and-exception monad *)

Definition M (A : Type) : Type := State float → Result A * State float.

#[global] Instance M_ret : MRet M := λ A a s, (Ok a, s).

#[global] Instance M_bind : MBind M := λ A B f m s,
  match m s with
  | (Ok a, s') => f a s'
  | (Raise e, s') => (Raise e, s')
  end.

Definition raise {A} (e : Exception) : M A := λ s, (Raise e, s).

Definition exec {A} (m : M A) (s : State float) : State float := snd (m s).
Definition eval {A} (m : M A) (s : State float) : Result A := fst (m s).

(** ** Redis commands *)

Definition usec_per_sec : Z := 1000000.

(** A volatile key is served until its deadline has passed: Redis drops
    it once the clock is past the deadline. *)
Definition live (now : Z) (e : entry float) : bool :=
  match e_deadline e with
  | Some d => now <=? d
  | None => true
  end.

Definition lookup_live (now : Z) (key : string) (r : gmap string (entry float))
    : option (entry float) :=
  match r !! key with
  | Some e => if live now e then Some e else None
  | None => None
  end.

(** GET *)
Definition redis_get (now : Z) (key : string) : M (option (rvalue float)) := λ s,
  (Ok (e_val <$> lookup_live now key (redis s)), s).

Definition set_redis (r : gmap string (entry float)) (s : State float) : State float :=
  mkState r (orders s) (queue s).

(** Redis integers are signed and 64 bits wide. *)
Definition int64_min : Z := -9223372036854775808.
Definition int64_max : Z := 9223372036854775807.

Definition int64 (n : Z) : bool := (int64_min <=? n) && (n <=? int64_max).

(** INCRBY: a missing key counts as 0; the time to live is kept.  An
    amount that is no 64-bit integer, a value that is none, and a sum that
    would be none are errors, and an error changes nothing. *)
Definition redis_incrby (now : Z) (key : string) (amount : Z) : M Z := λ s,
  if negb (int64 amount) then (Raise Uncaught, s)
  else
    match lookup_live now key (redis s) with
    | Some e =>
        match e_val e with
        | RInt n =>
            if int64 n && int64 (n + amount)
            then (Ok (n + amount),
                  set_redis (<[key := mkEntry (RInt (n + amount)) (e_deadline e)]> (redis s)) s)
            else (Raise Uncaught, s)
        | RJson _ => (Raise Uncaught, s)
        end
    | None =>
        (Ok amount, set_redis (<[key := mkEntry (RInt amount) None]> (redis s)) s)
    end.

(** redis-py: [incr(name, amount=1)] is INCRBY, [decr(name, amount=1)] is
    DECRBY.  DECRBY refuses the least 64-bit integer, which it cannot
    negate, and is INCRBY of the negated amount otherwise. *)
Definition redis_incr (now : Z) (key : string) (amount : Z) : M Z :=
  redis_incrby now key amount.

Definition redis_decr (now : Z) (key : string) (amount : Z) : M Z := λ s,
  if negb (int64 amount) || (amount =? int64_min) then (Raise Uncaught, s)
  else redis_incrby now key (- amount) s.

(** EXPIRE: on a key that exists, sets the time to live; a time to live
    that is not positive deletes the key. *)
Definition redis_expire (now : Z) (key : string) (seconds : Z) : M bool := λ s,
  match lookup_live now key (redis s) with
  | Some e =>
      if seconds <=? 0
      then (Ok true, set_redis (delete key (redis s)) s)
      else (Ok true,
            set_redis (<[key := mkEntry (e_val e) (Some (now + seconds * usec_per_sec))]> (redis s)) s)
  | None => (Ok false, s)
  end.

(** ** Mongo commands on [db.orders] *)

Definition has_id (id : string) (o : Order float) : bool := bool_decide (o_id o = id).

(** [find_one({"id": id})] *)
Definition find_order (id : string) (os : list (Order float)) : option (Order float) :=
  List.find (has_id id) os.

Definition find_one (id : string) : M (option (Order float)) := λ s,
  (Ok (find_order id (orders s)), s).

(** [update_one({"id": id}, {"$set": ...})]: the first match only. *)
Fixpoint update_first (id : string) (f : Order float → Order float)
    (os : list (Order float)) : list (Order float) :=
  match os with
  | [] => []
  | o :: os' => if has_id id o then f o :: os' else o :: update_first id f os'
  end.

Definition set_orders (os : list (Order float)) (s : State float) : State float :=
  mkState (redis s) os (queue s).

Definition update_one (id : string) (f : Order float → Order float) : M () := λ s,
  (Ok (), set_orders (update_first id f (orders s)) s).

(** [insert_one(order_dict)]: the document is stored, and the dict comes
    back with the ObjectId that pymongo has put into it under [_id]. *)
Definition insert_one (o : Order float) : M (OrderDict float) := λ s,
  (Ok (mkOrderDict o true), set_orders (orders s ++ [o]) s).

(** [process_order_task.delay(order_dict)]: Celery serialises the message
    before it publishes it, as JSON ([task_serializer='json']).  A dict
    that holds an ObjectId is not serialisable: kombu raises EncodeError
    and nothing is published. *)
Definition delay (order_dict : OrderDict float) : M () := λ s,
  if od_has_object_id order_dict then (Raise Uncaught, s)
  else (Ok (), mkState (redis s) (orders s) (queue s ++ [od_order order_dict])).

(** ** Rate limiting: [check_rate_limit] (server.py and server_enhanced.py) *)

Definition rate_key (user_id action : string) : string :=
  "rate_limit:" +:+ user_id +:+ ":" +:+ action.

(** The pipeline [incr; expire]: both commands run, the first error is
    raised afterwards. *)
Definition pipe_incr_expire (now : Z) (key : string) (window : Z) : M () := λ s,
  let '(r1, s1) := redis_incr now key 1 s in
  let '(_, s2) := redis_expire now key window s1 in
  match r1 with
  | Ok _ => (Ok (), s2)
  | Raise e => (Raise e, s2)
  end.

Definition check_rate_limit (now : Z) (user_id action : string) (limit window : Z) : M () :=
  let key := rate_key user_id action in
  count ← redis_get now key;
  match count with
  | Some (RInt c) =>
      if limit <=? c then raise RateLimited
      else pipe_incr_expire now key window
  | Some (RJson _) => raise Uncaught          (* int(count) fails *)
  | None => pipe_incr_expire now key window
  end.

(** ** Order confirmation: [process_order_task] *)

Definition set_confirmed (now : Z) (o : Order float) : Order float :=
  mkOrder (o_id o) (o_user_id o) (o_user_email o) (o_product_id o) (o_product_name o)
          (o_quantity o) (o_total_price o) "confirmed" (o_created_at o)
          (Some now) (o_can_cancel o) (o_cancelled_at o).

(** server.py: [$set {status: "confirmed", updated_at: now}] on the order
    with the id of the message; [now] is the clock after the task's
    [time.sleep(2)].  The task's own copy [order_data] of the message is
    also assigned to, which no store sees. *)
Definition process_order_task (now : Z) (order_data : Order float) : M (string * string) :=
  update_one (o_id order_data) (set_confirmed now) ;;
  mret (o_id order_data, "confirmed").

(** An order with its [updated_at] replaced, all else the same. *)
Definition with_updated_at (t : Z) (o : Order float) : Order float :=
  mkOrder (o_id o) (o_user_id o) (o_user_email o) (o_product_id o) (o_product_name o)
          (o_quantity o) (o_total_price o) (o_status o) (o_created_at o)
          (Some t) (o_can_cancel o) (o_cancelled_at o).

Definition set_confirmed_enhanced (o : Order float) : Order float :=
  mkOrder (o_id o) (o_user_id o) (o_user_email o) (o_product_id o) (o_product_name o)
          (o_quantity o) (o_total_price o) "confirmed" (o_created_at o)
          (o_updated_at o) (Some false) (o_cancelled_at o).

(** server_enhanced.py: [$set {status: "confirmed", can_cancel: False}]. *)
Definition process_order_task_enhanced (order_data : Order float) : M (string * string) :=
  update_one (o_id order_data) set_confirmed_enhanced ;;
  mret (o_id order_data, "confirmed").

(** ** Purchase: [flash_buy] (server.py) *)

Definition stock_key (pid : string) : string := "stock:" +:+ pid.
Definition product_key (pid : string) : string := "product:" +:+ pid.

(** Python truthiness of [product.get('discount_percent')]. *)
Definition truthy (d : option Z) : bool :=
  match d with
  | Some n => negb (n =? 0)
  | None => false
  end.

(** Lines 357-361 and 370: the charged total. *)
Definition total_price (product : Product float) (qty : Z) : float :=
  let price := p_price product in
  let price :=
    if p_flash_sale product && truthy (p_discount_percent product)
    then fmul price
           (fsub (float_of_int 1)
                 (fdiv (float_of_int (default 0 (p_discount_percent product)))
                       (float_of_int 100)))
    else price in
  round2 (fmul price (float_of_int qty)).

(** Lines 364-372: the order document.  [new_id] is the [uuid4] drawn for
    it; [created_at] and [updated_at] are the two readings of the clock
    that the default factories of the two fields take, one after the
    other. *)
Definition new_order (created_at updated_at : Z) (new_id : string)
    (request : FlashBuyRequest) (current_user : User) (product : Product float)
    : Order float :=
  mkOrder new_id (u_id current_user) (u_email current_user)
          (product_id request) (p_name product) (quantity request)
          (total_price product (quantity request))
          "pending" created_at (Some updated_at) None None.

(** Lines 348-354, the reservation: decrement, look at the result, and
    put the quantity back when the result is negative.  Returns
    [new_stock]. *)
Definition reserve (now : Z) (key : string) (qty : Z) : M Z :=
  new_stock ← redis_decr now key qty;
  if new_stock <? 0 then
    redis_incr now key qty ;;
    raise OutOfStock
  else mret new_stock.

(** [now] is the time at which the Redis commands run. *)
Definition flash_buy (now created_at updated_at : Z) (new_id : string)
    (request : FlashBuyRequest) (current_user : User) : M OrderStatus :=
  check_rate_limit now (u_id current_user) "flash_buy" 10 60 ;;
  product_data ← redis_get now (product_key (product_id request));
  match product_data with
  | None => raise UnknownProduct
  | Some product_json =>
      reserve now (stock_key (product_id request)) (quantity request) ;;
      match product_json with
      | RInt _ => raise Uncaught        (* product['price'] on an int *)
      | RJson product =>
          let order := new_order created_at updated_at new_id request current_user product in
          order_dict ← insert_one order;
          delay order_dict ;;
          mret (mkOrderStatus new_id "pending")
      end
  end.

(** Request validation, done by the framework before the handler runs.
    server.py declares [quantity: int = 1]: every integer passes.
    server_enhanced.py declares [Field(default=1, ge=1, le=10)]. *)
Definition max_per_order : Z := 10.

Definition FlashBuyRequest_valid (request : FlashBuyRequest) : bool := true.

Definition FlashBuyRequest_valid_enhanced (request : FlashBuyRequest) : bool :=
  (1 <=? quantity request) && (quantity request <=? max_per_order).

(** The route: the body is validated, then the handler runs. *)
Definition flash_buy_route (valid : FlashBuyRequest → bool)
    (now created_at updated_at : Z) (new_id : string)
    (request : FlashBuyRequest) (current_user : User) : M OrderStatus :=
  if valid request then flash_buy now created_at updated_at new_id request current_user
  else raise RequestValidationError.

(** ** Cancellation: [cancel_order] (additional_endpoints.py) *)

(** [timedelta(minutes=5)] *)
Definition cancel_window : Z := 5 * 60 * usec_per_sec.

Definition set_cancelled (now : Z) (o : Order float) : Order float :=
  mkOrder (o_id o) (o_user_id o) (o_user_email o) (o_product_id o) (o_product_name o)
          (o_quantity o) (o_total_price o) "cancelled" (o_created_at o)
          (Some now) (o_can_cancel o) (Some now).

(** Returns [refunded_stock]. *)
Definition cancel_order (now : Z) (order_id : string) (current_user : User) : M Z :=
  found ← find_one order_id;
  match found with
  | None => raise NotFound
  | Some order =>
      if negb (bool_decide (o_user_id order = u_id current_user)) then raise Forbidden
      else if negb (bool_decide (o_status order = "pending")) then
        raise (InvalidState (o_status order))
      else if cancel_window <? now - o_created_at order then raise WindowExpired
      else
        redis_incrby now (stock_key (o_product_id order)) (o_quantity order) ;;
        update_one order_id (set_cancelled now) ;;
        mret (o_quantity order)
  end.

(** ** Sequences of operations

    What reaches the stores: purchases, cancellations, and deliveries of
    published messages to the confirmation task.  The queue delivers at
    least once, so a delivery leaves the message in place. *)
Inductive Op : Type :=
  | Purchase (now created_at updated_at : Z) (new_id : string)
             (request : FlashBuyRequest) (user : User)
  | Cancel (now : Z) (order_id : string) (user : User)
  | Deliver (now : Z) (n : nat).

Definition step (valid : FlashBuyRequest → bool) (s : State float) (op : Op) : State float :=
  match op with
  | Purchase now created_at updated_at new_id request user =>
      exec (flash_buy_route valid now created_at updated_at new_id request user) s
  | Cancel now order_id user => exec (cancel_order now order_id user) s
  | Deliver now n =>
      match queue s !! n with
      | Some order_data => exec (process_order_task now order_data) s
      | None => s
      end
  end.

Definition run (valid : FlashBuyRequest → bool) (ops : list Op) (s : State float) : State float :=
  fold_left (step valid) ops s.

(** ** Observations *)

(** An integer key as the catalogue reads it (server.py, lines 322-323):
    [int(stock) if stock else 0]. *)
Definition read_int (now : Z) (key : string) (s : State float) : Z :=
  match lookup_live now key (redis s) with
  | Some e => match e_val e with RInt n => n | RJson _ => 0 end
  | None => 0
  end.

Definition stock_count (now : Z) (pid : string) (s : State float) : Z :=
  read_int now (stock_key pid) s.

(** The deadline of a key, if it is volatile. *)
Definition key_deadline (now : Z) (key : string) (s : State float) : option Z :=
  match lookup_live now key (redis s) with
  | Some e => e_deadline e
  | None => None
  end.

(** The key is free to be used as a counter: absent, expired, or an
    integer. *)
Definition is_counter (now : Z) (key : string) (s : State float) : bool :=
  match lookup_live now key (redis s) with
  | Some e => match e_val e with RInt _ => true | RJson _ => false end
  | None => true
  end.

(** Adding [amount] to the key stays within the 64-bit integers of the
    store: the amount, the value of the key and their sum are such
    integers. *)
Definition fits (now : Z) (key : string) (amount : Z) (s : State float) : bool :=
  int64 amount && int64 (read_int now key s) && int64 (read_int now key s + amount).

Definition holds_stock (o : Order float) : bool :=
  bool_decide (o_status o = "pending") || bool_decide (o_status o = "confirmed").

(** Total quantity of the orders on [pid] that are pending or confirmed. *)
Definition sold (pid : string) (os : list (Order float)) : Z :=
  foldr (λ o acc, if bool_decide (o_product_id o = pid) && holds_stock o
                  then o_quantity o + acc else acc) 0 os.

(** The stock of [pid] is a persistent counter [n] with [0 <= n], the
    quantities on order are not negative, and stock in hand plus stock
    sold does not exceed [S]. *)
Definition within_stock (pid : string) (S : Z) (s : State float) : Prop :=
  ∃ n, redis s !! stock_key pid = Some (mkEntry (RInt n) None) ∧
       0 ≤ n ∧ n + sold pid (orders s) ≤ S ∧
       Forall (λ o, 0 ≤ o_quantity o) (orders s).

Definition is_delivery (op : Op) : bool :=
  match op with Deliver _ _ => true | _ => false end.

Definition status_of (id : string) (s : State float) : option string :=
  o_status <$> find_order id (orders s).

(** A window of [window] seconds, in microseconds. *)
Definition window_usec (window : Z) : Z := window * usec_per_sec.

(** Only one Redis key may differ between [s] and [s']; the orders and the
    queue are the same. *)
Definition touches_only (key : string) (s s' : State float) : Prop :=
  orders s' = orders s ∧ queue s' = queue s ∧
  ∀ k, k ≠ key → redis s' !! k = redis s !! k.

(** Requests of one subject for one action, arriving at the given times:
    which are admitted, and the store they leave. *)
Fixpoint admissions (times : list Z) (user_id action : string) (limit window : Z)
    (s : State float) : list bool * State float :=
  match times with
  | [] => ([], s)
  | t :: ts =>
      let '(r, s1) := check_rate_limit t user_id action limit window s in
      let '(rs, s2) := admissions ts user_id action limit window s1 in
      (is_ok r :: rs, s2)
  end.

End ScaleMart.

(** * The rest of the shop

    The handlers of server.py around the purchase path: seeding and
    listing the catalogue, restocking, and reading orders back. *)

Section Catalogue.

Context `{FloatOps float}.

Local Abbreviation M := (M (float:=float)).

(** ** Two more Redis commands *)

(** SET: the value replaces whatever the key held, and the key becomes
    persistent. *)
Definition redis_set (key : string) (v : rvalue float) : M () := λ s,
  (Ok (), set_redis (<[key := mkEntry v None]> (redis s)) s).

(** KEYS with a pattern [prefix*]: the live keys that start with [prefix].
    Redis promises no order; the model lists them in the order of the
    map. *)
Definition redis_keys (now : Z) (prefix : string) : M (list string) := λ s,
  (Ok (filter (λ key, String.prefix prefix key = true ∧
                      is_Some (lookup_live now key (redis s)))
              (map_to_list (redis s)).*1),
   s).

(** ** [initialize_products] (server.py, lines 194-262) *)

(** A price written with two decimals: the float nearest to [cents / 100],
    which is what the literal denotes. *)
Definition price (cents : Z) : float := fdiv (float_of_int cents) (float_of_int 100).

Definition products : list (Product float) := [
  mkProduct "prod_1" "Premium Wireless Headphones"
    "High-quality noise-cancelling headphones" (price 29999)
    "https://images.unsplash.com/photo-1505740420928-5e560c06d30e?w=500"
    50 true (Some 40);
  mkProduct "prod_2" "Smart Fitness Watch"
    "Track your health and fitness goals" (price 19999)
    "https://images.unsplash.com/photo-1523275335684-37898b6baf30?w=500"
    30 true (Some 50);
  mkProduct "prod_3" "4K Action Camera"
    "Capture your adventures in stunning detail" (price 39999)
    "https://images.unsplash.com/photo-1526170375885-4d8ecf77b99f?w=500"
    20 true (Some 35);
  mkProduct "prod_4" "Mechanical Gaming Keyboard"
    "RGB backlit with tactile switches" (price 14999)
    "https://images.unsplash.com/photo-1595225476474-87563907a212?w=500"
    100 false (Some 0);
  mkProduct "prod_5" "Portable Bluetooth Speaker"
    "Waterproof with 24-hour battery life" (price 7999)
    "https://images.unsplash.com/photo-1608043152269-423dbba4e7e1?w=500"
    75 false (Some 0);
  mkProduct "prod_6" "USB-C Charging Hub"
    "6-in-1 multiport adapter" (price 4999)
    "https://images.unsplash.com/photo-1625948515291-69613efd103f?w=500"
    150 false (Some 0)
].

(** The body of the loop: the product blob, then its stock counter. *)
Definition seed_product (product : Product float) : M () :=
  redis_set (product_key (p_id product)) (RJson product) ;;
  redis_set (stock_key (p_id product)) (RInt (p_stock product)).

Fixpoint seed_products (ps : list (Product float)) : M () :=
  match ps with
  | [] => mret ()
  | product :: rest => seed_product product ;; seed_products rest
  end.

Definition initialize_products : M () := seed_products products.

(** ** [get_products] (server.py, lines 304-326) *)

(** [product['stock'] = ...] *)
Definition with_stock (stock : Z) (p : Product float) : Product float :=
  mkProduct (p_id p) (p_name p) (p_description p) (p_price p) (p_image_url p)
            stock (p_flash_sale p) (p_discount_percent p).

(** What the listing shows for a key: nothing if the key is gone, else the
    product with the live count of its stock key. *)
Definition shown (now : Z) (s : State float) (key : string) : option (Product float) :=
  match lookup_live now key (redis s) with
  | Some e =>
      match e_val e with
      | RJson product => Some (with_stock (stock_count now (p_id product) s) product)
      | RInt _ => None
      end
  | None => None
  end.

(** The loop over the keys. *)
Fixpoint list_products (now : Z) (keys : list string) : M (list (Product float)) :=
  match keys with
  | [] => mret []
  | key :: rest =>
      product_data ← redis_get now key;
      match product_data with
      | None => list_products now rest
      | Some (RInt _) => raise Uncaught          (* product['id'] on an int *)
      | Some (RJson product) =>
          stock ← redis_get now (stock_key (p_id product));
          match stock with
          | Some (RJson _) => raise Uncaught     (* int(stock) fails *)
          | Some (RInt n) =>
              listed ← list_products now rest; mret (with_stock n product :: listed)
          | None =>
              listed ← list_products now rest; mret (with_stock 0 product :: listed)
          end
      end
  end.

Definition get_products (now : Z) : M (list (Product float)) :=
  keys ← redis_keys now "product:";
  keys ← match keys with
         | [] => initialize_products ;; redis_keys now "product:"
         | _ => mret keys
         end;
  list_products now keys.

(** ** [restock_product] (server.py, lines 468-481) *)

Record RestockRequest : Type := mkRestockRequest {
  restock_product_id : string;
  restock_quantity : Z
}.

(** Returns [new_stock]. *)
Definition restock_product (now : Z) (request : RestockRequest) : M Z :=
  product_data ← redis_get now (product_key (restock_product_id request));
  match product_data with
  | None => raise UnknownProduct
  | Some _ =>
      redis_incrby now (stock_key (restock_product_id request)) (restock_quantity request)
  end.

(** ** Reading orders: [get_order_status] and [get_user_orders]
    (server.py, lines 389-415) *)

(** The response model [Order], built from the document: it keeps the
    fields of server.py's [Order] and ignores the others.  Both handlers
    read [order['updated_at']] first, which is a KeyError on a document
    without that field: there is no view of such a document. *)
Definition order_view (o : Order float) : option (Order float) :=
  match o_updated_at o with
  | Some updated_at =>
      Some (mkOrder (o_id o) (o_user_id o) (o_user_email o) (o_product_id o)
                    (o_product_name o) (o_quantity o) (o_total_price o) (o_status o)
                    (o_created_at o) (Some updated_at) None None)
  | None => None
  end.

(** [find_one({"id": order_id, "user_id": current_user.id})] *)
Definition find_own_order (order_id user_id : string) (os : list (Order float))
    : option (Order float) :=
  List.find (λ o, has_id order_id o && bool_decide (o_user_id o = user_id)) os.

Definition get_order_status (order_id : string) (current_user : User)
    : M (Order float) := λ s,
  match find_own_order order_id (u_id current_user) (orders s) with
  | Some order =>
      match order_view order with
      | Some view => (Ok view, s)
      | None => (Raise Uncaught, s)
      end
  | None => (Raise NotFound, s)
  end.

(** [sort("created_at", -1)]: newest first.  Mongo leaves the order of
    equal keys open; the model takes the one of a merge sort. *)
Definition newer_first (a b : Order float) : Prop := o_created_at b ≤ o_created_at a.

#[global] Instance newer_first_dec (a b : Order float) : Decision (newer_first a b) :=
  Z_le_dec (o_created_at b) (o_created_at a).

Definition get_user_orders (current_user : User) : M (list (Order float)) := λ s,
  let orders :=
    take 100 (merge_sort newer_first
                (filter (λ o, o_user_id o = u_id current_user) (orders s))) in
  match mapM order_view orders with
  | Some views => (Ok views, s)
  | None => (Raise Uncaught, s)
  end.

End Catalogue.

(** * Input sanitising

    [sanitize_input] of server_enhanced.py (lines 290-298) and its
    namesake in middleware.py (lines 58-75).  A Python string is a
    sequence of code points. *)

Module Text.

Abbreviation text := (list N).

(** The code points of a literal. *)
Definition codes (literal : string) : text :=
  Ascii.N_of_ascii <$> String.list_ascii_of_string literal.

(** [str.isspace] on one character: the code points CPython classes as
    whitespace. *)
Definition isspace (c : N) : bool :=
  ((9 <=? c) && (c <=? 13) || (28 <=? c) && (c <=? 32) || (c =? 133) || (c =? 160)
   || (c =? 5760) || (8192 <=? c) && (c <=? 8202) || (c =? 8232) || (c =? 8233)
   || (c =? 8239) || (c =? 8287) || (c =? 12288))%N.

Fixpoint lstrip (t : text) : text :=
  match t with
  | c :: rest => if isspace c then lstrip rest else t
  | [] => []
  end.

Definition rstrip (t : text) : text := reverse (lstrip (reverse t)).

(** [str.strip()] *)
Definition strip (t : text) : text := rstrip (lstrip t).

(** [text.replace(char, replacement)] for a one-character [char]. *)
Definition replace (char : N) (replacement : text) (t : text) : text :=
  c ← t; if (c =? char)%N then replacement else [c].

(** server_enhanced.py: the characters are removed.
    ['<', '>', the double quote, the single quote, '&', the backquote] *)
Definition dangerous_chars : list N := [60; 62; 34; 39; 38; 96]%N.

Definition sanitize_input (t : text) : text :=
  match t with
  | [] => t                                       (* if not text: return text *)
  | _ => strip (foldl (λ t char, replace char [] t) t dangerous_chars)
  end.

(** middleware.py: the characters are replaced by entities, in the order
    of the dictionary. *)
Definition entities : list (N * text) :=
  [(60, codes "&lt;"); (62, codes "&gt;"); (34, codes "&quot;");
   (39, codes "&#x27;"); (38, codes "&amp;")]%N.

Definition middleware_sanitize_input (t : text) : text :=
  match t with
  | [] => t
  | _ => strip (foldl (λ t '(char, replacement), replace char replacement t) t entities)
  end.

(** What one character of the input has become when
    [middleware_sanitize_input] is done with it. *)
Definition escaped (c : N) : text :=
  if (c =? 60)%N then codes "&amp;lt;"
  else if (c =? 62)%N then codes "&amp;gt;"
  else if (c =? 34)%N then codes "&amp;quot;"
  else if (c =? 39)%N then codes "&amp;#x27;"
  else if (c =? 38)%N then codes "&amp;"
  else [c].

(** A string that neither starts nor ends with whitespace. *)
Definition trimmed (t : text) : Prop :=
  (∀ c, head t = Some c → isspace c = false) ∧
  (∀ c, last t = Some c → isspace c = false).

End Text.

(** * Pagination: [paginate_query] (performance.py, lines 81-99) *)

Section Pagination.

Context {A : Type}.

Record Page : Type := mkPage {
  pg_items : list A;
  pg_page : Z;
  pg_page_size : Z;
  pg_total : Z;
  pg_total_pages : Z;
  pg_has_next : bool;
  pg_has_prev : bool
}.

(** The collection is the list of its documents and the query a test on
    documents.  pymongo refuses a negative [skip], Motor a negative
    [length], and a [page_size] of 0 divides by zero: each ends the call
    with an exception. *)
Definition paginate_query (collection : list A) (query : A → bool)
    (page page_size : Z) : Result Page :=
  let skip := (page - 1) * page_size in
  if (skip <? 0) || (page_size <=? 0) then Raise Uncaught
  else
    let found := List.filter query collection in
    let items := take (Z.to_nat page_size) (drop (Z.to_nat skip) found) in
    let total := Z.of_nat (length found) in
    let total_pages := (total + page_size - 1) `div` page_size in
    Ok (mkPage items page page_size total total_pages
               (page <? total_pages) (1 <? page)).

(** The items of a page, nothing when the call fails. *)
Definition page_items (collection : list A) (query : A → bool)
    (page page_size : Z) : list A :=
  match paginate_query collection query page page_size with
  | Ok pg => pg_items pg
  | Raise _ => []
  end.

End Pagination.

Arguments Page A : clear implicits.

(** * Accounts: [signup] and [login] (server.py, lines 265-302)

    bcrypt and the token codec are libraries: they are parameters. *)

Section Accounts.

Context {Salt Token : Type}.
Context (hashpw : Salt → string → string).           (* bcrypt.hashpw(password, salt) *)
Context (checkpw : string → string → bool).          (* bcrypt.checkpw(password, hashed) *)
Context (create_jwt_token : Z → string → string → Token).   (* at a time, for an id and an email *)

(** A document of [db.users]. *)
Record UserDoc : Type := mkUserDoc {
  ud_id : string;
  ud_email : string;
  ud_name : string;
  ud_created_at : Z;
  ud_password : string
}.

Record UserSignup : Type := mkUserSignup {
  su_email : string;
  su_password : string;
  su_name : string
}.

Record UserLogin : Type := mkUserLogin {
  li_email : string;
  li_password : string
}.

Inductive AuthError : Type :=
  | EmailTaken             (* 400 "Email already registered" *)
  | InvalidCredentials.    (* 401 "Invalid credentials" *)

(** The response: the token and the user's id, email and name. *)
Record Session : Type := mkSession {
  se_token : Token;
  se_user : User
}.

(** [find_one({"email": email})] *)
Definition find_email (email : string) (users : list UserDoc) : option UserDoc :=
  List.find (λ u, bool_decide (ud_email u = email)) users.

(** [new_id] is the [uuid4] drawn for the user and [salt] the salt drawn
    by [bcrypt.gensalt()]. *)
Definition signup (now : Z) (new_id : string) (salt : Salt) (user_data : UserSignup)
    (users : list UserDoc) : (AuthError + Session) * list UserDoc :=
  match find_email (su_email user_data) users with
  | Some _ => (inl EmailTaken, users)
  | None =>
      let user := mkUser new_id (su_email user_data) (su_name user_data) in
      let user_dict :=
        mkUserDoc new_id (su_email user_data) (su_name user_data) now
                  (hashpw salt (su_password user_data)) in
      (inr (mkSession (create_jwt_token now new_id (su_email user_data)) user),
       users ++ [user_dict])
  end.

Definition login (now : Z) (credentials : UserLogin) (users : list UserDoc)
    : (AuthError + Session) * list UserDoc :=
  match find_email (li_email credentials) users with
  | None => (inl InvalidCredentials, users)
  | Some user =>
      if checkpw (li_password credentials) (ud_password user)
      then (inr (mkSession (create_jwt_token now (ud_id user) (ud_email user))
                           (mkUser (ud_id user) (ud_email user) (ud_name user))),
            users)
      else (inl InvalidCredentials, users)
  end.

End Accounts.

(** * Product search: [search_products] (additional_endpoints.py, lines 16-95) *)

(** [a < b] on floats. *)
Class FloatOrd (float : Type) : Type := {
  flt : float → float → bool
}.

Section Search.

Context `{FloatOps float} `{FloatOrd float}.
Context (lower : string → string).                   (* str.lower *)

Local Abbreviation M := (M (float:=float)).

(** [needle in hay] *)
Fixpoint contains (needle hay : string) : bool :=
  String.prefix needle hay ||
  match hay with
  | String _ rest => contains needle rest
  | EmptyString => false
  end.

(** The parameters of the request. *)
Record SearchQuery : Type := mkSearchQuery {
  sq_q : option string;
  sq_category : option string;
  sq_min_price : option float;
  sq_max_price : option float;
  sq_flash_sale_only : bool
}.

(** The filters of the loop body.  A parameter that is [None] or the empty
    string is not applied; the stored products carry no category, so
    [product.get('category', 'general')] is 'general'. *)
Definition matches (sq : SearchQuery) (product : Product float) : bool :=
  let matches := true in
  let matches :=
    match sq_q sq with
    | Some (String _ _ as q) =>
        let search_text :=
          lower (p_name product +:+ " " +:+ p_description product) in
        if negb (contains (lower q) search_text) then false else matches
    | _ => matches
    end in
  let matches :=
    match sq_category sq with
    | Some (String _ _ as category) =>
        if negb (bool_decide ("general" = category)) then false else matches
    | _ => matches
    end in
  let matches :=
    match sq_min_price sq with
    | Some min_price => if flt (p_price product) min_price then false else matches
    | None => matches
    end in
  let matches :=
    match sq_max_price sq with
    | Some max_price => if flt max_price (p_price product) then false else matches
    | None => matches
    end in
  let matches :=
    if sq_flash_sale_only sq && negb (p_flash_sale product) then false else matches in
  matches.

(** The loop over [range(1, 7)], on the numbers written out. *)
Fixpoint search_loop (now : Z) (sq : SearchQuery) (range : list string)
    : M (list (Product float)) :=
  match range with
  | [] => mret []
  | i :: rest =>
      product_data ← redis_get now ("product:prod_" +:+ i);
      match product_data with
      | None => search_loop now sq rest
      | Some product_data =>
          stock ← redis_get now ("stock:prod_" +:+ i);
          match product_data, stock with
          | RInt _, _ => raise Uncaught            (* product['stock'] = ... on an int *)
          | RJson _, Some (RJson _) => raise Uncaught           (* int(stock) fails *)
          | RJson product, Some (RInt n) =>
              let product := with_stock n product in
              all_products ← search_loop now sq rest;
              mret (if matches sq product then product :: all_products else all_products)
          | RJson product, None =>
              let product := with_stock 0 product in
              all_products ← search_loop now sq rest;
              mret (if matches sq product then product :: all_products else all_products)
          end
      end
  end.

Record SearchResult : Type := mkSearchResult {
  sr_results : list (Product float);
  sr_count : nat;
  sr_query : option string
}.

Definition search_products (now : Z) (sq : SearchQuery) : M SearchResult :=
  all_products ← search_loop now sq ["1"; "2"; "3"; "4"; "5"; "6"];
  mret (mkSearchResult all_products (length all_products) (sq_q sq)).

(** What the search shows for a number: the product stored under it with
    the live count of its stock key, if it passes the filters. *)
Definition hit (now : Z) (sq : SearchQuery) (s : State float) (i : string)
    : option (Product float) :=
  match lookup_live now ("product:prod_" +:+ i) (redis s) with
  | Some e =>
      match e_val e with
      | RJson product =>
          let product := with_stock (read_int now ("stock:prod_" +:+ i) s) product in
          if matches sq product then Some product else None
      | RInt _ => None
      end
  | None => None
  end.

End Search.

Arguments SearchQuery float : clear implicits.
Arguments SearchResult float : clear implicits.

(** * Subscriptions: the event handlers of websocket_manager.py
    (lines 19-82, 133-135)

    Socket.IO keeps the rooms; they are modelled as the set of the pairs
    (room, client) with [enter_room] adding a pair and [leave_room] taking
    it away.  What [sio.emit] is given is logged. *)

Module WebSocket.

(** A value of [connected_clients]. *)
Record Client : Type := mkClient {
  connected_at : option string;
  subscriptions : list string
}.

(** A call of [sio.emit]: the event, the identifier in its payload, the room. *)
Record Emitted : Type := mkEmitted {
  ev_event : string;
  ev_subject : string;
  ev_room : string
}.

Record Server : Type := mkServer {
  connected_clients : gmap string Client;
  rooms : gset (string * string);
  emitted : list Emitted
}.

Definition product_room (product_id : string) : string := "product_" +:+ product_id.

Definition enter_room (sid room : string) (s : Server) : Server :=
  mkServer (connected_clients s) ({[ (room, sid) ]} ∪ rooms s) (emitted s).

Definition leave_room (sid room : string) (s : Server) : Server :=
  mkServer (connected_clients s) (rooms s ∖ {[ (room, sid) ]}) (emitted s).

Definition emit (event subject room : string) (s : Server) : Server :=
  mkServer (connected_clients s) (rooms s) (emitted s ++ [mkEmitted event subject room]).

Definition set_clients (clients : gmap string Client) (s : Server) : Server :=
  mkServer clients (rooms s) (emitted s).

(** [list.remove]: the first occurrence goes. *)
Fixpoint remove_first (x : string) (l : list string) : list string :=
  match l with
  | [] => []
  | y :: rest => if bool_decide (y = x) then rest else y :: remove_first x rest
  end.

(** [http_date] is [environ.get('HTTP_DATE')]. *)
Definition connect (sid : string) (http_date : option string) (s : Server) : Server :=
  let s := set_clients (<[sid := mkClient http_date []]> (connected_clients s)) s in
  emit "connection_established" sid sid s.


(** [product_id] is [data.get('product_id')]; [None] and the empty string
    are falsy. *)
Definition subscribe_product (sid : string) (product_id : option string) (s : Server)
    : Server :=
  match product_id with
  | Some (String _ _ as product_id) =>
      let s := enter_room sid (product_room product_id) s in
      let s :=
        match connected_clients s !! sid with
        | Some client =>
            set_clients
              (<[sid := mkClient (connected_at client)
                                 (subscriptions client ++ [product_id])]>
                 (connected_clients s)) s
        | None => s
        end in
      emit "subscribed" product_id sid s
  | _ => s
  end.

Definition unsubscribe_product (sid : string) (product_id : option string) (s : Server)
    : Server :=
  match product_id with
  | Some (String _ _ as product_id) =>
      let s := leave_room sid (product_room product_id) s in
      match connected_clients s !! sid with
      | Some client =>
          if bool_decide (product_id ∈ subscriptions client)
          then set_clients
                 (<[sid := mkClient (connected_at client)
                                    (remove_first product_id (subscriptions client))]>
                    (connected_clients s)) s
          else s
      | None => s
      end
  | _ => s
  end.


Definition get_connected_clients_count (s : Server) : nat := size (connected_clients s).



(** The products a client has on its list. *)
Definition subscribed (s : Server) (sid : string) : list string :=
  match connected_clients s !! sid with
  | Some client => subscriptions client
  | None => []
  end.


End WebSocket.

(** ** A concrete shop

    One user, one product from [initialize_products], prices erased. *)
Module Shop.

Definition no_prices : FloatOps () :=
  {| float_of_int := λ _, (); fmul := λ _ _, (); fsub := λ _ _, ();
     fdiv := λ _ _, (); round2 := λ _, () |}.
#[local] Existing Instance no_prices.

Definition alice : User := mkUser "u1" "alice@example.com" "Alice".
Definition bob : User := mkUser "u2" "bob@example.com" "Bob".

Definition headphones : Product () :=
  mkProduct "prod_1" "Premium Wireless Headphones"
            "High-quality noise-cancelling headphones" () "" 50 true (Some 40).

(** The stores after [initialize_products] with [stock] units of prod_1. *)
Definition seeded (stock : Z) : State () :=
  mkState (<["product:prod_1" := mkEntry (RJson headphones) None]>
             (<["stock:prod_1" := mkEntry (RInt stock) None]> ∅))
          [] [].

Definition buy (qty : Z) : FlashBuyRequest := mkFlashBuyRequest "prod_1" qty.

Definition seconds (n : Z) : Z := n * usec_per_sec.

(** Alice has asked for one of two units: the store as [flash_buy] leaves
    it, with her order o1 in it. *)
Definition after_purchase : State () :=
  exec (flash_buy 0 0 0 "o1" (buy 1) alice) (seeded 2).

End Shop.

(** ** More sample data: accounts, a collection to page through, and the
    parameters of a search on the concrete shop. *)
Module Samples.

(** Floats erased: nothing is below anything. *)
Definition no_order : FloatOrd () := {| flt := λ _ _, false |}.

(** A stand-in for bcrypt that keeps the password readable. *)
Definition hashpw (salt : ()) (password : string) : string := "hash:" +:+ password.
Definition checkpw (password hashed : string) : bool :=
  bool_decide (hashed = "hash:" +:+ password).
Definition create_jwt_token (now : Z) (user_id email : string) : string :=
  user_id +:+ "/" +:+ email.

Definition registered : list UserDoc :=
  [mkUserDoc "u1" "alice@example.com" "Alice" 0 "hash:wonderland"].

Definition bob_signup : UserSignup := mkUserSignup "bob@example.com" "builder" "Bob".

(** The stores before anything was written. *)
Definition empty_shop : State () := mkState ∅ [] [].

(** A server with one client, just connected. *)
Definition one_client : WebSocket.Server :=
  WebSocket.connect "c1" None (WebSocket.mkServer ∅ ∅ []).


Definition numbers : list Z := [1; 2; 3; 4; 5; 6; 7; 8; 9; 10].

Definition wireless : SearchQuery () :=
  mkSearchQuery (Some "Wireless") None None None true.

End Samples.

(** * Properties *)

Ltac unfold_M :=
  unfold mbind, M_bind, mret, M_ret, raise in *.

Section Properties.

Context `{FloatOps float}.

Implicit Types (s : State float) (o : Order float).

(** ** Keys *)

Lemma rate_key_not_stock_key user_id action pid :
  rate_key user_id action ≠ stock_key pid.
Proof. unfold rate_key, stock_key. simpl. discriminate. Qed.

Lemma rate_key_not_product_key user_id action pid :
  rate_key user_id action ≠ product_key pid.
Proof. unfold rate_key, product_key. simpl. discriminate. Qed.

Lemma stock_key_inj pid pid' : stock_key pid = stock_key pid' → pid = pid'.
Proof. unfold stock_key. cbn. intros Heq. by simplify_eq. Qed.

(** ** Live keys *)

Lemma lookup_live_Some now key (r : gmap string (entry float)) e :
  lookup_live now key r = Some e ↔ r !! key = Some e ∧ live now e = true.
Proof.
  unfold lookup_live. destruct (r !! key) as [e0|]; [|split; [done|by intros [? ?]]].
  destruct (live now e0) eqn:Hl; split.
  - by intros [= ->].
  - by intros [[= ->] _].
  - done.
  - intros [[= ->] Hl']. congruence.
Qed.

Lemma lookup_live_insert now key (r : gmap string (entry float)) e :
  lookup_live now key (<[key := e]> r) = if live now e then Some e else None.
Proof. unfold lookup_live. by rewrite lookup_insert_eq. Qed.

(** ** 64-bit counters *)

Lemma int64_spec (n : Z) : int64 n = true ↔ int64_min ≤ n ≤ int64_max.
Proof. unfold int64. by rewrite andb_true_iff, !Z.leb_le. Qed.

Lemma int64_one : int64 1 = true.
Proof. reflexivity. Qed.

(** INCRBY fails without a trace. *)
Lemma redis_incrby_Raise now key amount s e s2 :
  redis_incrby now key amount s = (Raise e, s2) → e = Uncaught ∧ s2 = s.
Proof.
  unfold redis_incrby. destruct (int64 amount); cbn [negb]; [|by intros [= <- <-]].
  destruct (lookup_live now key (redis s)) as [[[c|p] d]|]; cbn [e_val]; [| |done].
  - destruct (int64 c && int64 (c + amount)); by intros [= <- <-].
  - by intros [= <- <-].
Qed.

(** INCRBY succeeds exactly on a counter that the amount fits. *)
Lemma redis_incrby_Ok now key amount s n s2 :
  redis_incrby now key amount s = (Ok n, s2) →
  n = read_int now key s + amount ∧ int64 n = true ∧
  is_counter now key s = true ∧
  s2 = set_redis (<[key := mkEntry (RInt n) (key_deadline now key s)]> (redis s)) s.
Proof.
  unfold redis_incrby, read_int, is_counter, key_deadline.
  destruct (int64 amount) eqn:Ha; cbn [negb]; [|done].
  destruct (lookup_live now key (redis s)) as [[[c|p] d]|]; cbn [e_val e_deadline]; [|done|].
  - destruct (int64 c) eqn:Hc; cbn [andb]; [|done].
    destruct (int64 (c + amount)) eqn:Hs; [|done]. by intros [= <- <-].
  - intros [= <- <-]. by rewrite Z.add_0_l.
Qed.

(** INCRBY on a counter that the amount fits: the result, and the store it
    leaves. *)
Lemma redis_incrby_counter now key amount s :
  is_counter now key s = true →
  fits now key amount s = true →
  (∀ m, live (float:=float) now (mkEntry (RInt m) (key_deadline now key s)) = true) ∧
  redis_incrby now key amount s =
    (Ok (read_int now key s + amount),
     set_redis (<[key := mkEntry (RInt (read_int now key s + amount))
                                 (key_deadline now key s)]> (redis s)) s).
Proof.
  unfold is_counter, fits, redis_incrby, read_int, key_deadline.
  destruct (lookup_live now key (redis s)) as [[[n|p] d]|] eqn:Hl; cbn [e_val e_deadline];
    intros Hc Hf; [|done|].
  - apply andb_true_iff in Hf as [[Ha Hn]%andb_true_iff Hs].
    rewrite Ha, Hn, Hs. cbn [negb andb].
    apply lookup_live_Some in Hl as [_ Hlive]. done.
  - apply andb_true_iff in Hf as [[Ha _]%andb_true_iff _].
    rewrite Ha. cbn [negb]. by rewrite Z.add_0_l.
Qed.

(** ** The rate limiter *)






Lemma touches_only_refl key s : touches_only key s s.
Proof. by repeat split. Qed.

Lemma touches_only_trans key s1 s2 s3 :
  touches_only key s1 s2 → touches_only key s2 s3 → touches_only key s1 s3.
Proof.
  intros (Ho1 & Hq1 & Hr1) (Ho2 & Hq2 & Hr2).
  split; [congruence|split; [congruence|]].
  intros k Hk. rewrite Hr2, Hr1; done.
Qed.

Lemma redis_incrby_touches now key amount s :
  touches_only key s (snd (redis_incrby now key amount s)).
Proof.
  destruct (redis_incrby now key amount s) as [[n|e] s2] eqn:Hi; cbn [snd].
  - apply redis_incrby_Ok in Hi as (_ & _ & _ & ->).
    split; [done|split; [done|]]. intros k Hk. cbn. by rewrite lookup_insert_ne.
  - apply redis_incrby_Raise in Hi as [_ ->]. apply touches_only_refl.
Qed.

Lemma redis_decr_touches now key amount s :
  touches_only key s (snd (redis_decr now key amount s)).
Proof.
  unfold redis_decr. destruct (negb (int64 amount) || (amount =? int64_min));
    [apply touches_only_refl|apply redis_incrby_touches].
Qed.

Lemma redis_expire_touches now key seconds s :
  touches_only key s (snd (redis_expire now key seconds s)).
Proof.
  unfold redis_expire.
  destruct (lookup_live now key (redis s)) as [e|]; [|apply touches_only_refl].
  destruct (seconds <=? 0); cbn; (split; [done|split; [done|]]); intros k Hk; cbn.
  - by rewrite lookup_delete_ne.
  - by rewrite lookup_insert_ne.
Qed.

Lemma pipe_incr_expire_touches now key window s :
  touches_only key s (snd (pipe_incr_expire now key window s)).
Proof.
  unfold pipe_incr_expire, redis_incr.
  pose proof (redis_incrby_touches now key 1 s) as H1.
  destruct (redis_incrby now key 1 s) as [r1 s1]. cbn [snd] in H1.
  pose proof (redis_expire_touches now key window s1) as H2.
  destruct (redis_expire now key window s1) as [r2 s2]. cbn [snd] in H2.
  destruct r1; cbn [snd]; by eapply touches_only_trans.
Qed.

Lemma check_rate_limit_touches now user_id action limit window s :
  touches_only (rate_key user_id action) s
    (exec (check_rate_limit now user_id action limit window) s).
Proof.
  unfold exec, check_rate_limit, redis_get. unfold_M.
  destruct (lookup_live now (rate_key user_id action) (redis s)) as [[[c|p] d]|]; cbn.
  - destruct (limit <=? c); [apply touches_only_refl|apply pipe_incr_expire_touches].
  - apply touches_only_refl.
  - apply pipe_incr_expire_touches.
Qed.

(** The pipeline raises only what INCR raised. *)
Lemma pipe_incr_expire_Raise now key window s e s2 :
  pipe_incr_expire now key window s = (Raise e, s2) → e = Uncaught.
Proof.
  unfold pipe_incr_expire, redis_incr.
  destruct (redis_incrby now key 1 s) as [[n|e1] s1] eqn:Hi;
    destruct (redis_expire now key window s1) as [r2 s3]; [done|].
  apply redis_incrby_Raise in Hi as [-> _]. by intros [= <- _].
Qed.


(** Every admitted request increments the counter of its key and sets the
    expiry of the key to [window] seconds after that request, whether or
    not the key was there. *)
Lemma check_rate_limit_Ok_entry now user_id action limit window s s1 :
  0 < window →
  check_rate_limit now user_id action limit window s = (Ok (), s1) →
  redis s1 !! rate_key user_id action =
    Some (mkEntry (RInt (read_int now (rate_key user_id action) s + 1))
                  (Some (now + window_usec window))).
Proof.
  intros Hw. unfold check_rate_limit, redis_get. unfold_M. cbn [fst snd].
  assert (pipe_incr_expire now (rate_key user_id action) window s = (Ok (), s1) →
          redis s1 !! rate_key user_id action =
            Some (mkEntry (RInt (read_int now (rate_key user_id action) s + 1))
                          (Some (now + window_usec window)))) as Hpipe.
  { unfold pipe_incr_expire, redis_incr.
    destruct (redis_incrby now (rate_key user_id action) 1 s) as [[n|e] s2] eqn:Hi.
    2: { by destruct (redis_expire _ _ _ _). }
    apply redis_incrby_Ok in Hi as (-> & _ & _ & ->).
    unfold redis_expire. cbn [redis set_redis]. rewrite lookup_live_insert.
    destruct (live now _) eqn:Hlive.
    - destruct (window <=? 0) eqn:Hle; [lia|]. intros [= <-]. cbn.
      by rewrite lookup_insert_eq.
    - exfalso. unfold key_deadline, live in Hlive. cbn [e_deadline] in Hlive.
      destruct (lookup_live now (rate_key user_id action) (redis s)) as [e0|] eqn:Hl;
        [|done].
      apply lookup_live_Some in Hl as [_ Hl0]. unfold live in Hl0. congruence. }
  destruct (lookup_live now (rate_key user_id action) (redis s)) as [[[c|p] d]|];
    cbn [fmap option_fmap option_map e_val]; [|done|done].
  by destruct (limit <=? c).
Qed.




(** ** The order collection *)

Lemma find_order_update_first id (f : Order float → Order float) (os : list (Order float)) :
  (∀ o, o_id (f o) = o_id o) →
  find_order id (update_first id f os) = f <$> find_order id os.
Proof.
  intros Hf. unfold find_order. induction os as [|o os IH]; [done|]. cbn.
  destruct (has_id id o) eqn:Hid; cbn.
  - unfold has_id in *. rewrite Hf. by rewrite Hid.
  - by rewrite Hid.
Qed.

Lemma find_order_update_first_ne id id' (f : Order float → Order float)
    (os : list (Order float)) :
  (∀ o, o_id (f o) = o_id o) → id ≠ id' →
  find_order id' (update_first id f os) = find_order id' os.
Proof.
  intros Hf Hne. unfold find_order. induction os as [|o os IH]; [done|]. cbn.
  destruct (has_id id o) eqn:Hid; cbn.
  - unfold has_id in *. rewrite Hf. apply bool_decide_eq_true in Hid.
    rewrite !bool_decide_eq_false_2 by congruence. done.
  - by rewrite IH.
Qed.

Lemma update_first_compose id (f g : Order float → Order float) (os : list (Order float)) :
  (∀ o, o_id (f o) = o_id o) →
  update_first id g (update_first id f os) = update_first id (g ∘ f) os.
Proof.
  intros Hf. induction os as [|o os IH]; [done|]. cbn.
  destruct (has_id id o) eqn:Hid; cbn.
  - unfold has_id in *. rewrite Hf. by rewrite Hid.
  - rewrite Hid. by rewrite IH.
Qed.

Lemma update_first_ext id (f g : Order float → Order float) (os : list (Order float)) :
  (∀ o, f o = g o) → update_first id f os = update_first id g os.
Proof.
  intros Hfg. induction os as [|o os IH]; [done|]. cbn.
  destruct (has_id id o); [by rewrite Hfg|by rewrite IH].
Qed.

(** ** Cancellation *)

(** C4.  The checks of [cancel_order] run in the order in which the claim
    lists them, each under the failure of the ones before it: no order
    with that id gives NotFound; an order of another user gives Forbidden;
    the requester's own order in a status other than pending gives
    InvalidState; the requester's own pending order older than 5 minutes
    gives WindowExpired.  Whenever [cancel_order] fails, the stores (the
    stock counters and the order records among them) are exactly as
    before. *)
Theorem cancel_order_failures now order_id current_user s :
  let r := eval (cancel_order now order_id current_user) s in
  (find_order order_id (orders s) = None → r = Raise NotFound) ∧
  (∀ o, find_order order_id (orders s) = Some o →
     (o_user_id o ≠ u_id current_user → r = Raise Forbidden) ∧
     (o_user_id o = u_id current_user → o_status o ≠ "pending" →
        r = Raise (InvalidState (o_status o))) ∧
     (o_user_id o = u_id current_user → o_status o = "pending" →
        cancel_window < now - o_created_at o → r = Raise WindowExpired)) ∧
  (∀ e, r = Raise e → exec (cancel_order now order_id current_user) s = s).
Proof.
  unfold eval, exec, cancel_order, find_one. unfold_M. cbn.
  destruct (find_order order_id (orders s)) as [o|] eqn:Hfind; cbn.
  2: { split; [done|]. split; [done|]. done. }
  split; [done|].
  destruct (bool_decide (o_user_id o = u_id current_user)) eqn:Hown; cbn.
  2: { apply bool_decide_eq_false in Hown.
       split; [|done]. intros o' [= <-]. repeat split; done. }
  apply bool_decide_eq_true in Hown.
  destruct (bool_decide (o_status o = "pending")) eqn:Hst; cbn.
  2: { apply bool_decide_eq_false in Hst.
       split; [|done]. intros o' [= <-]. repeat split; done. }
  apply bool_decide_eq_true in Hst.
  destruct (cancel_window <? now - o_created_at o) eqn:Hwin; cbn.
  { split; [|done]. intros o' [= <-]. repeat split; done. }
  apply Z.ltb_ge in Hwin. split.
  - intros o' [= <-]. repeat split; try done. lia.
  - intros e.
    destruct (redis_incrby now (stock_key (o_product_id o)) (o_quantity o) s)
      as [[n|e1] s1] eqn:Hincr; cbn; [done|].
    apply redis_incrby_Raise in Hincr as [_ ->]. done.
Qed.

Lemma cancel_order_not_pending now order_id current_user s o :
  find_order order_id (orders s) = Some o →
  o_user_id o = u_id current_user →
  o_status o ≠ "pending" →
  cancel_order now order_id current_user s = (Raise (InvalidState (o_status o)), s).
Proof.
  intros Hfind Hown Hst. unfold cancel_order, find_one. unfold_M. cbn.
  rewrite Hfind. cbn.
  by rewrite (bool_decide_eq_true_2 _ Hown), (bool_decide_eq_false_2 _ Hst).
Qed.

(** C5, as amended.  Cancelling a pending order of the requester within
    the 5-minute window, on a stock counter that the quantity fits (the sum
    is a 64-bit integer, as Redis needs it), succeeds, adds exactly the order's
    quantity to the stock counter of its product, leaves every other key
    and every other order alone and sets the order's status to cancelled;
    a second cancel of that order by the requester, at whatever time,
    fails with InvalidState and changes nothing. *)
Theorem cancel_order_refunds now order_id current_user s o :
  find_order order_id (orders s) = Some o →
  o_user_id o = u_id current_user →
  o_status o = "pending" →
  now - o_created_at o ≤ cancel_window →
  is_counter now (stock_key (o_product_id o)) s = true →
  fits now (stock_key (o_product_id o)) (o_quantity o) s = true →
  let s' := exec (cancel_order now order_id current_user) s in
  eval (cancel_order now order_id current_user) s = Ok (o_quantity o) ∧
  stock_count now (o_product_id o) s' = stock_count now (o_product_id o) s + o_quantity o ∧
  touches_only (stock_key (o_product_id o)) (set_orders (orders s') s) s' ∧
  find_order order_id (orders s') = Some (set_cancelled now o) ∧
  status_of order_id s' = Some "cancelled" ∧
  (∀ id, id ≠ order_id → find_order id (orders s') = find_order id (orders s)) ∧
  ∀ now',
    eval (cancel_order now' order_id current_user) s' = Raise (InvalidState "cancelled") ∧
    exec (cancel_order now' order_id current_user) s' = s'.
Proof.
  intros Hfind Hown Hst Hwin Hc Hfits s'.
  assert (s' = set_orders (update_first order_id (set_cancelled now) (orders s))
                 (snd (redis_incrby now (stock_key (o_product_id o)) (o_quantity o) s))
          ∧ eval (cancel_order now order_id current_user) s = Ok (o_quantity o))
    as [Hs' Hr].
  { subst s'. unfold eval, exec, cancel_order, find_one, update_one. unfold_M. cbn.
    rewrite Hfind. cbn.
    rewrite (bool_decide_eq_true_2 _ Hown), (bool_decide_eq_true_2 _ Hst). cbn.
    destruct (cancel_window <? now - o_created_at o) eqn:Hlt; [lia|].
    destruct (redis_incrby_counter now _ (o_quantity o) s Hc Hfits) as (_ & ->). done. }
  destruct (redis_incrby_counter now _ (o_quantity o) s Hc Hfits) as (Hlive & Hincr).
  rewrite Hincr in Hs'. cbn in Hs'.
  assert (find_order order_id (orders s') = Some (set_cancelled now o)) as Hfind'.
  { rewrite Hs'. cbn [orders set_orders].
    rewrite find_order_update_first by done. by rewrite Hfind. }
  split; [done|]. split; [|split; [|split; [done|split; [|split]]]].
  - unfold stock_count at 1. unfold read_int. rewrite Hs'. cbn.
    rewrite lookup_live_insert, Hlive. done.
  - rewrite Hs'. cbn. split; [done|split; [done|]]. intros k Hk. cbn.
    by rewrite lookup_insert_ne.
  - unfold status_of. by rewrite Hfind'.
  - intros id Hid. rewrite Hs'. cbn [orders set_orders].
    by apply find_order_update_first_ne.
  - intros now'. unfold eval, exec.
    by rewrite (cancel_order_not_pending now' _ _ _ _ Hfind' Hown).
Qed.

(** ** Purchase *)

Lemma touches_only_lookup_live key s s' now k :
  touches_only key s s' → k ≠ key →
  lookup_live now k (redis s') = lookup_live now k (redis s).
Proof. intros (_ & _ & Hr) Hk. unfold lookup_live. by rewrite Hr. Qed.

Lemma check_rate_limit_passed now user_id action limit window s :
  eval (check_rate_limit now user_id action limit window) s = Ok () →
  ∃ s1, check_rate_limit now user_id action limit window s = (Ok (), s1) ∧
        touches_only (rate_key user_id action) s s1.
Proof.
  intros Hr. pose proof (check_rate_limit_touches now user_id action limit window s) as Ht.
  unfold eval, exec in *.
  destruct (check_rate_limit now user_id action limit window s) as [r s1].
  cbn in *. subst r. by exists s1.
Qed.

Lemma read_int_set now key n d s (r : gmap string (entry float)) :
  live (float:=float) now (mkEntry (RInt n) d) = true →
  read_int now key (set_redis (<[key := mkEntry (RInt n) d]> r) s) = n.
Proof. intros Hl. unfold read_int. cbn. by rewrite lookup_live_insert, Hl. Qed.

Lemma key_deadline_set now key n d s (r : gmap string (entry float)) :
  live (float:=float) now (mkEntry (RInt n) d) = true →
  key_deadline now key (set_redis (<[key := mkEntry (RInt n) d]> r) s) = d.
Proof. intros Hl. unfold key_deadline. cbn. by rewrite lookup_live_insert, Hl. Qed.

Lemma is_counter_set now key n d s (r : gmap string (entry float)) :
  is_counter now key (set_redis (<[key := mkEntry (RInt n) d]> r) s) = true.
Proof.
  unfold is_counter. cbn. rewrite lookup_live_insert.
  by destruct (live now _).
Qed.

Lemma check_rate_limit_Raise now user_id action limit window s e s1 :
  check_rate_limit now user_id action limit window s = (Raise e, s1) →
  e = RateLimited ∨ e = Uncaught.
Proof.
  unfold check_rate_limit, redis_get. unfold_M. cbn [fst snd].
  destruct (lookup_live now (rate_key user_id action) (redis s)) as [[[c|p] d]|];
    cbn [fmap option_fmap option_map e_val].
  - destruct (limit <=? c); [intros [= <- _]; by left|].
    intros ->%pipe_incr_expire_Raise. by right.
  - intros [= <- _]. by right.
  - intros ->%pipe_incr_expire_Raise. by right.
Qed.

(** *** The reservation *)

(** DECRBY, then INCRBY of the same amount, on a counter that can take
    both: the two outcomes of the reservation. *)
Lemma reserve_outcome now key q s :
  is_counter now key s = true →
  int64 (read_int now key s) = true →
  int64_min < q ≤ int64_max →
  int64 (read_int now key s - q) = true →
  reserve now key q s =
    if read_int now key s - q <? 0
    then (Raise OutOfStock,
          set_redis (<[key := mkEntry (RInt (read_int now key s))
                                      (key_deadline now key s)]> (redis s)) s)
    else (Ok (read_int now key s - q),
          set_redis (<[key := mkEntry (RInt (read_int now key s - q))
                                      (key_deadline now key s)]> (redis s)) s).
Proof.
  intros Hc Hn Hq Hnq.
  set (n := read_int now key s) in *. set (d := key_deadline now key s) in *.
  assert (int64 q = true) as Hq64 by (apply int64_spec; lia).
  assert (int64 (- q) = true) as Hmq.
  { apply int64_spec. unfold int64_min, int64_max in *. lia. }
  destruct (redis_incrby_counter now key (- q) s Hc) as (Hlive & Hdecr).
  { unfold fits. fold n. replace (n + - q) with (n - q) by lia. by rewrite Hmq, Hn, Hnq. }
  fold n d in Hlive, Hdecr. replace (n + - q) with (n - q) in Hdecr by lia.
  unfold reserve, redis_decr. unfold_M.
  rewrite Hq64. destruct (q =? int64_min) eqn:Hmin; [lia|]. cbn [negb orb].
  rewrite Hdecr. destruct (n - q <? 0) eqn:Hneg; [|done].
  unfold redis_incr.
  edestruct (redis_incrby_counter now key q) as (_ & ->); [apply is_counter_set| |].
  { unfold fits. rewrite read_int_set by done.
    replace (n - q + q) with n by lia. by rewrite Hq64, Hnq, Hn. }
  rewrite read_int_set, key_deadline_set by done.
  cbn [redis set_redis orders queue].
  rewrite insert_insert_eq. unfold set_redis. cbn [redis orders queue].
  by replace (n - q + q) with n by lia.
Qed.

Lemma reserve_touches now key q s :
  touches_only key s (snd (reserve now key q s)).
Proof.
  unfold reserve. unfold_M.
  pose proof (redis_decr_touches now key q s) as Ht.
  destruct (redis_decr now key q s) as [[m|e] s1]; cbn [snd] in Ht; [|done].
  destruct (m <? 0); [|done].
  pose proof (redis_incrby_touches now key q s1) as Ht2. unfold redis_incr.
  destruct (redis_incrby now key q s1) as [[m'|e] s2]; cbn [snd] in *;
    by eapply touches_only_trans.
Qed.

Lemma redis_decr_Ok now key q s m s1 :
  redis_decr now key q s = (Ok m, s1) →
  m = read_int now key s - q ∧ int64 m = true ∧ int64 q = true ∧
  int64 (read_int now key s) = true ∧ is_counter now key s = true ∧
  s1 = set_redis (<[key := mkEntry (RInt m) (key_deadline now key s)]> (redis s)) s.
Proof.
  unfold redis_decr. destruct (int64 q) eqn:Hq; cbn [negb orb]; [|done].
  destruct (q =? int64_min); [done|]. intros Hi.
  assert (int64 (read_int now key s) = true) as Hn.
  { revert Hi. unfold redis_incrby, read_int.
    destruct (negb (int64 (- q))); [done|].
    destruct (lookup_live now key (redis s)) as [[[c|p] d]|]; cbn [e_val]; [|done|done].
    by destruct (int64 c). }
  apply redis_incrby_Ok in Hi as (-> & ? & ? & ->).
  split; [lia|]. done.
Qed.

Lemma redis_decr_Raise now key q s e s1 :
  redis_decr now key q s = (Raise e, s1) → e = Uncaught ∧ s1 = s.
Proof.
  unfold redis_decr. destruct (negb (int64 q) || (q =? int64_min)).
  - by intros [= <- <-].
  - apply redis_incrby_Raise.
Qed.

(** A reservation that returns has left a counter that is not negative. *)
Lemma reserve_Ok now key q s m s2 :
  reserve now key q s = (Ok m, s2) →
  m = read_int now key s - q ∧ 0 ≤ m ∧ is_counter now key s = true ∧
  s2 = set_redis (<[key := mkEntry (RInt m) (key_deadline now key s)]> (redis s)) s.
Proof.
  unfold reserve. unfold_M.
  destruct (redis_decr now key q s) as [[m1|e] s1] eqn:Hd; [|done].
  apply redis_decr_Ok in Hd as (-> & _ & _ & _ & Hc & ->).
  destruct (read_int now key s - q <? 0) eqn:Hneg.
  - unfold redis_incr. by destruct (redis_incrby _ _ _ _) as [[?|?] ?].
  - intros [= <- <-]. apply Z.ltb_ge in Hneg. done.
Qed.

(** A reservation that fails has put back what it took: either the
    decrement was refused and nothing is changed, or the counter had less
    than was asked and holds again what it held. *)
Lemma reserve_Raise now key q s e s2 :
  reserve now key q s = (Raise e, s2) →
  (e = Uncaught ∧ s2 = s) ∨
  (e = OutOfStock ∧ read_int now key s < q ∧
   s2 = set_redis (<[key := mkEntry (RInt (read_int now key s))
                                    (key_deadline now key s)]> (redis s)) s).
Proof.
  unfold reserve. unfold_M.
  destruct (redis_decr now key q s) as [[m1|e1] s1] eqn:Hd.
  2: { apply redis_decr_Raise in Hd as [-> ->]. intros [= <- <-]. by left. }
  apply redis_decr_Ok in Hd as (-> & Hm & Hq & Hn & Hc & ->).
  destruct (read_int now key s - q <? 0) eqn:Hneg; [|done].
  apply Z.ltb_lt in Hneg.
  assert (∀ m, live (float:=float) now (mkEntry (RInt m) (key_deadline now key s)) = true)
    as Hlive.
  { intros m. unfold key_deadline, live. cbn [e_deadline].
    destruct (lookup_live now key (redis s)) as [e0|] eqn:Hl; [|done].
    by apply lookup_live_Some in Hl as [_ Hl0]. }
  unfold redis_incr.
  edestruct (redis_incrby_counter now key q) as (_ & ->); [apply is_counter_set| |].
  { unfold fits. rewrite read_int_set by done.
    replace (read_int now key s - q + q) with (read_int now key s) by lia.
    by rewrite Hq, Hm, Hn. }
  rewrite read_int_set, key_deadline_set by done.
  intros [= <- <-]. right. split; [done|]. split; [lia|].
  cbn [redis set_redis orders queue]. rewrite insert_insert_eq.
  unfold set_redis. cbn [redis orders queue]. do 4 f_equal. lia.
Qed.

(** *** The handler, step by step *)

Lemma flash_buy_unfold now created_at updated_at new_id request current_user s :
  flash_buy now created_at updated_at new_id request current_user s =
    match check_rate_limit now (u_id current_user) "flash_buy" 10 60 s with
    | (Raise e, s1) => (Raise e, s1)
    | (Ok _, s1) =>
        match lookup_live now (product_key (product_id request)) (redis s1) with
        | None => (Raise UnknownProduct, s1)
        | Some pe =>
            match reserve now (stock_key (product_id request)) (quantity request) s1 with
            | (Raise e, s2) => (Raise e, s2)
            | (Ok _, s2) =>
                match e_val pe with
                | RInt _ => (Raise Uncaught, s2)
                | RJson product =>
                    (Raise Uncaught,
                     set_orders
                       (orders s2 ++ [new_order created_at updated_at new_id request
                                                current_user product]) s2)
                end
            end
        end
    end.
Proof.
  unfold flash_buy, redis_get, insert_one, delay. unfold_M.
  destruct (check_rate_limit now (u_id current_user) "flash_buy" 10 60 s) as [[[]|e] s1];
    [|done].
  destruct (lookup_live now (product_key (product_id request)) (redis s1)) as [pe|];
    cbn [fmap option_fmap option_map]; [|done].
  destruct (reserve now (stock_key (product_id request)) (quantity request) s1)
    as [[m|e] s2]; [|done].
  by destruct (e_val pe).
Qed.

(** C2, as amended.  A reservation attempt is the decrement that
    [flash_buy] makes once the rate limiter has admitted the request and
    the product has been found.  Where the counter, the quantity [q] and
    their difference are 64-bit integers (and [q] is not the least one):
    if the counter holds at least [q], the reservation succeeds and the
    counter ends at its old value minus [q]; otherwise the reservation,
    and [flash_buy] with it, fails with OutOfStock and, the compensating
    increment done, the counter is back at its old value.  (After a
    reservation that succeeds, [flash_buy] stores the order and fails in
    [delay].) *)
Theorem flash_buy_reservation
    now created_at updated_at new_id request current_user s product :
  eval (check_rate_limit now (u_id current_user) "flash_buy" 10 60) s = Ok () →
  eval (redis_get now (product_key (product_id request))) s = Ok (Some (RJson product)) →
  is_counter now (stock_key (product_id request)) s = true →
  int64 (stock_count now (product_id request) s) = true →
  int64_min < quantity request ≤ int64_max →
  int64 (stock_count now (product_id request) s - quantity request) = true →
  let pre := stock_count now (product_id request) s in
  let s' := exec (flash_buy now created_at updated_at new_id request current_user) s in
  (quantity request ≤ pre →
     eval (reserve now (stock_key (product_id request)) (quantity request)) s
       = Ok (pre - quantity request) ∧
     stock_count now (product_id request) s' = pre - quantity request ∧
     orders s' = orders s ++ [new_order created_at updated_at new_id request
                                        current_user product] ∧
     eval (flash_buy now created_at updated_at new_id request current_user) s
       = Raise Uncaught) ∧
  (pre < quantity request →
     eval (reserve now (stock_key (product_id request)) (quantity request)) s
       = Raise OutOfStock ∧
     eval (flash_buy now created_at updated_at new_id request current_user) s
       = Raise OutOfStock ∧
     stock_count now (product_id request) s' = pre ∧
     orders s' = orders s).
Proof.
  intros Hadm Hprod Hc Hpre64 Hq Hdiff pre s'.
  destruct (check_rate_limit_passed _ _ _ _ _ _ Hadm) as (s1 & Hrl & Ht).
  assert (lookup_live now (stock_key (product_id request)) (redis s1)
          = lookup_live now (stock_key (product_id request)) (redis s)) as Hsk.
  { eapply touches_only_lookup_live; [done|].
    intros Heq. symmetry in Heq. by apply rate_key_not_stock_key in Heq. }
  assert (lookup_live now (product_key (product_id request)) (redis s1)
          = lookup_live now (product_key (product_id request)) (redis s)) as Hpk.
  { eapply touches_only_lookup_live; [done|].
    intros Heq. symmetry in Heq. by apply rate_key_not_product_key in Heq. }
  assert (is_counter now (stock_key (product_id request)) s1 = true) as Hc1.
  { unfold is_counter in *. by rewrite Hsk. }
  assert (read_int now (stock_key (product_id request)) s1 = pre) as Hpre1.
  { subst pre. unfold stock_count, read_int. by rewrite Hsk. }
  assert (∀ m, live (float:=float) now
                 (mkEntry (RInt m) (key_deadline now (stock_key (product_id request)) s1))
               = true) as Hlive.
  { intros m. unfold key_deadline, live. cbn [e_deadline].
    destruct (lookup_live now (stock_key (product_id request)) (redis s1)) as [e0|] eqn:Hl;
      [|done].
    by apply lookup_live_Some in Hl as [_ Hl0]. }
  pose proof (reserve_outcome now (stock_key (product_id request)) (quantity request) s
                Hc Hpre64 Hq Hdiff) as Hres.
  pose proof (reserve_outcome now (stock_key (product_id request)) (quantity request) s1
                Hc1) as Hres1.
  rewrite Hpre1 in Hres1. specialize (Hres1 Hpre64 Hq Hdiff).
  fold (stock_count now (product_id request) s) in Hres. fold pre in Hres.
  unfold eval, redis_get in Hprod. cbn [fst] in Hprod. rewrite <- Hpk in Hprod.
  injection Hprod as Hprod.
  destruct (lookup_live now (product_key (product_id request)) (redis s1)) as [pe|] eqn:Hp;
    [|done].
  cbn in Hprod. injection Hprod as Hprod.
  destruct Ht as (Ho & _ & _).
  subst s'. unfold eval, exec. rewrite flash_buy_unfold, Hrl, Hp, Hres, Hres1, Hprod.
  split; intros Hcmp.
  - destruct (pre - quantity request <? 0) eqn:Hneg; [lia|]. cbn [fst snd].
    split; [done|]. split; [|split; [|done]].
    + unfold stock_count, read_int. cbn [redis set_orders set_redis].
      by rewrite lookup_live_insert, Hlive.
    + cbn [orders set_orders set_redis]. by rewrite Ho.
  - destruct (pre - quantity request <? 0) eqn:Hneg; [|lia]. cbn [fst snd].
    split; [done|]. split; [done|]. split; [|done].
    unfold stock_count. by rewrite read_int_set.
Qed.


(** ** Confirmation *)

Lemma process_order_task_exec now order_data s :
  process_order_task now order_data s =
    (Ok (o_id order_data, "confirmed"),
     set_orders (update_first (o_id order_data) (set_confirmed now) (orders s)) s).
Proof. done. Qed.

Lemma process_order_task_enhanced_exec order_data s :
  process_order_task_enhanced order_data s =
    (Ok (o_id order_data, "confirmed"),
     set_orders (update_first (o_id order_data) set_confirmed_enhanced (orders s)) s).
Proof. done. Qed.

(** The task sets the status whatever it was. *)
Lemma process_order_task_status now order_data s :
  status_of (o_id order_data) (exec (process_order_task now order_data) s)
    = (λ _, "confirmed") <$> find_order (o_id order_data) (orders s).
Proof.
  unfold exec, status_of. rewrite process_order_task_exec. cbn [snd orders set_orders].
  rewrite find_order_update_first by done.
  by destruct (find_order (o_id order_data) (orders s)).
Qed.

(** C9, as amended.  For every order, running the confirmation step a
    second time raises no error and leaves the order, if it is in the
    collection, in status confirmed.  With the task of server_enhanced.py
    the second run changes nothing at all.  With the task of server.py the
    second run changes exactly one thing: it overwrites the order's
    [updated_at] with the time of the second run. *)
Theorem process_order_task_redelivery now1 now2 order_data s :
  let id := o_id order_data in
  let once := exec (process_order_task now1 order_data) s in
  let twice := exec (process_order_task now2 order_data) once in
  let once_enhanced := exec (process_order_task_enhanced order_data) s in
  eval (process_order_task now2 order_data) once = Ok (id, "confirmed") ∧
  status_of id twice = (λ _, "confirmed") <$> find_order id (orders s) ∧
  twice = set_orders (update_first id (with_updated_at now2) (orders once)) once ∧
  eval (process_order_task_enhanced order_data) once_enhanced = Ok (id, "confirmed") ∧
  status_of id once_enhanced = (λ _, "confirmed") <$> find_order id (orders s) ∧
  exec (process_order_task_enhanced order_data) once_enhanced = once_enhanced.
Proof.
  cbn zeta. unfold eval, exec.
  rewrite !process_order_task_exec, !process_order_task_enhanced_exec. cbn [fst snd].
  split; [done|]. split; [|split; [|split; [done|split]]].
  - unfold status_of. cbn [orders set_orders].
    rewrite !find_order_update_first by done.
    by destruct (find_order (o_id order_data) (orders s)).
  - unfold set_orders. cbn [redis orders queue]. f_equal.
    rewrite !update_first_compose by done. by apply update_first_ext.
  - unfold status_of. cbn [orders set_orders].
    rewrite find_order_update_first by done.
    by destruct (find_order (o_id order_data) (orders s)).
  - unfold set_orders. cbn [redis orders queue]. f_equal.
    rewrite update_first_compose by done. by apply update_first_ext.
Qed.

(** ** Stock accounting without the confirmation worker

    With the request model of server_enhanced.py, and as long as no
    message is delivered to the confirmation task, purchases and
    cancellations keep the stock within bounds. *)

Lemma sold_nonneg pid (os : list (Order float)) :
  Forall (λ o, 0 ≤ o_quantity o) os → 0 ≤ sold pid os.
Proof.
  unfold sold. induction 1 as [|o os Ho _ IH]; cbn [foldr]; [done|].
  destruct (bool_decide (o_product_id o = pid) && holds_stock o); lia.
Qed.

Lemma sold_app pid (os : list (Order float)) o :
  sold pid (os ++ [o]) =
    sold pid os + (if bool_decide (o_product_id o = pid) && holds_stock o
                   then o_quantity o else 0).
Proof.
  unfold sold. induction os as [|o' os IH]; cbn [app foldr].
  - destruct (bool_decide (o_product_id o = pid) && holds_stock o); lia.
  - rewrite IH.
    destruct (bool_decide (o_product_id o' = pid) && holds_stock o'); lia.
Qed.

Lemma sold_cancel_first now pid id (os : list (Order float)) o :
  find_order id os = Some o → o_status o = "pending" →
  sold pid (update_first id (set_cancelled now) os) =
    sold pid os - (if bool_decide (o_product_id o = pid) then o_quantity o else 0).
Proof.
  unfold find_order, sold.
  induction os as [|o' os IH]; cbn [find update_first foldr]; [done|].
  destruct (has_id id o') eqn:Hid; cbn [foldr].
  - intros [= ->] Hst. unfold holds_stock. cbn [set_cancelled o_status o_product_id o_quantity].
    rewrite Hst. cbn [bool_decide decide_rel orb]. rewrite andb_true_r.
    replace (bool_decide (o_product_id o = pid) && _) with false
      by (symmetry; apply andb_false_r).
    destruct (bool_decide (o_product_id o = pid)); lia.
  - intros Hf Hst. rewrite IH by done.
    destruct (bool_decide (o_product_id o' = pid) && holds_stock o'); lia.
Qed.

Lemma quantities_update_first id (f : Order float → Order float) (os : list (Order float)) :
  (∀ o, o_quantity (f o) = o_quantity o) →
  Forall (λ o, 0 ≤ o_quantity o) os →
  Forall (λ o, 0 ≤ o_quantity o) (update_first id f os).
Proof.
  intros Hf. induction 1 as [|o os Ho Hos IH]; cbn; [done|].
  destruct (has_id id o); constructor; try done. by rewrite Hf.
Qed.

Lemma find_order_quantity id (os : list (Order float)) o :
  find_order id os = Some o → Forall (λ o, 0 ≤ o_quantity o) os → 0 ≤ o_quantity o.
Proof.
  unfold find_order. intros Hf Hall. apply find_some in Hf as [Hin _].
  rewrite Forall_forall in Hall. apply Hall. by apply list_elem_of_In.
Qed.

(** The two outcomes of [cancel_order]. *)
Lemma cancel_order_outcome now order_id current_user s :
  (∃ e, cancel_order now order_id current_user s = (Raise e, s)) ∨
  (∃ o n s1,
     find_order order_id (orders s) = Some o ∧ o_status o = "pending" ∧
     redis_incrby now (stock_key (o_product_id o)) (o_quantity o) s = (Ok n, s1) ∧
     cancel_order now order_id current_user s =
       (Ok (o_quantity o),
        set_orders (update_first order_id (set_cancelled now) (orders s)) s1)).
Proof.
  unfold cancel_order, find_one, update_one. unfold_M. cbn.
  destruct (find_order order_id (orders s)) as [o|] eqn:Hfind; cbn; [|by left; eexists].
  destruct (bool_decide (o_user_id o = u_id current_user)); cbn; [|by left; eexists].
  destruct (bool_decide (o_status o = "pending")) eqn:Hst; cbn; [|by left; eexists].
  apply bool_decide_eq_true in Hst.
  destruct (cancel_window <? now - o_created_at o); cbn; [by left; eexists|].
  destruct (redis_incrby now (stock_key (o_product_id o)) (o_quantity o) s)
    as [[n|e] s1] eqn:Hincr.
  - right. exists o, n, s1.
    pose proof (redis_incrby_touches now (stock_key (o_product_id o)) (o_quantity o) s)
      as (Ho & _ & _).
    rewrite Hincr in Ho. cbn [snd] in Ho. by rewrite Ho.
  - left. apply redis_incrby_Raise in Hincr as [-> ->]. by eexists.
Qed.

Lemma within_stock_ext pid S s s' :
  redis s' !! stock_key pid = redis s !! stock_key pid →
  orders s' = orders s →
  within_stock pid S s → within_stock pid S s'.
Proof. intros Hr Ho (n & Hn & ?). exists n. by rewrite Hr, Ho. Qed.

(** On a persistent counter, values and deadlines read as stored. *)
Lemma read_persistent now key s n :
  redis s !! key = Some (mkEntry (RInt n) None) →
  read_int now key s = n ∧ key_deadline now key s = None.
Proof. intros Hk. unfold read_int, key_deadline, lookup_live. by rewrite Hk. Qed.

Lemma cancel_order_within_stock now order_id current_user pid S s :
  within_stock pid S s →
  within_stock pid S (exec (cancel_order now order_id current_user) s).
Proof.
  intros Hin. unfold exec.
  destruct (cancel_order_outcome now order_id current_user s)
    as [[e ->]|(o & m & s1 & Hfind & Hst & Hincr & ->)]; [done|].
  cbn [snd]. destruct Hin as (n & Hn & Hn0 & Hsum & Hq).
  pose proof (find_order_quantity _ _ _ Hfind Hq) as Hqo.
  pose proof (sold_cancel_first now pid _ _ _ Hfind Hst) as Hsold.
  pose proof (quantities_update_first order_id (set_cancelled now) _ ltac:(done) Hq) as Hq'.
  destruct (decide (o_product_id o = pid)) as [Hp|Hp].
  - rewrite Hp in Hincr. apply redis_incrby_Ok in Hincr as (-> & _ & _ & ->).
    destruct (read_persistent now _ _ _ Hn) as [-> ->].
    rewrite bool_decide_eq_true_2 in Hsold by done.
    exists (n + o_quantity o). cbn. rewrite lookup_insert_eq.
    split; [done|]. split; [lia|]. split; [|done]. unfold sold in *. lia.
  - rewrite bool_decide_eq_false_2 in Hsold by done.
    pose proof (redis_incrby_touches now (stock_key (o_product_id o)) (o_quantity o) s)
      as (_ & _ & Hr).
    rewrite Hincr in Hr. cbn [snd] in Hr.
    exists n. cbn. rewrite Hr; [|by intros Heq%stock_key_inj].
    split; [done|]. split; [lia|]. split; [|done]. unfold sold in *. lia.
Qed.

Lemma within_stock_touches key pid S s s' :
  touches_only key s s' → key ≠ stock_key pid →
  within_stock pid S s → within_stock pid S s'.
Proof.
  intros (Ho & _ & Hr) Hk. apply within_stock_ext; [|done].
  apply Hr. congruence.
Qed.

Lemma within_stock_sale pid S s s' n q o :
  redis s !! stock_key pid = Some (mkEntry (RInt n) None) →
  within_stock pid S s → 0 ≤ q → 0 ≤ n - q →
  o_quantity o = q → o_product_id o = pid → o_status o = "pending" →
  redis s' !! stock_key pid = Some (mkEntry (RInt (n - q)) None) →
  orders s' = orders s ++ [o] →
  within_stock pid S s'.
Proof.
  intros Hn (n' & Hn' & Hn0 & Hsum & Hq) Hq0 Hnq Hoq Hop Hos Hn2 Ho2.
  rewrite Hn in Hn'. injection Hn' as <-.
  exists (n - q). rewrite Ho2.
  split; [done|]. split; [done|]. split.
  - rewrite sold_app. unfold holds_stock.
    rewrite (bool_decide_eq_true_2 _ Hop), (bool_decide_eq_true_2 _ Hos). cbn. lia.
  - apply Forall_app. split; [done|]. constructor; [lia|done].
Qed.

Lemma flash_buy_within_stock now created_at updated_at new_id request current_user pid S s :
  0 ≤ quantity request →
  within_stock pid S s →
  within_stock pid S
    (exec (flash_buy now created_at updated_at new_id request current_user) s).
Proof.
  intros Hq0 Hin. unfold exec. rewrite flash_buy_unfold.
  pose proof (check_rate_limit_touches now (u_id current_user) "flash_buy" 10 60 s) as Ht.
  unfold exec in Ht.
  destruct (check_rate_limit now (u_id current_user) "flash_buy" 10 60 s) as [r0 s1].
  cbn [snd] in Ht.
  eapply within_stock_touches in Hin; [|exact Ht|apply rate_key_not_stock_key].
  clear Ht s. destruct r0 as [[]|e0]; [|done].
  destruct (lookup_live now (product_key (product_id request)) (redis s1)) as [pe|];
    [|done].
  pose proof (reserve_touches now (stock_key (product_id request)) (quantity request) s1)
    as Ht.
  destruct (reserve now (stock_key (product_id request)) (quantity request) s1)
    as [[m|e1] s2] eqn:Hres; cbn [snd] in *.
  - apply reserve_Ok in Hres as (Hm & Hm0 & _ & Hs2).
    destruct (decide (product_id request = pid)) as [Hp|Hp].
    + rewrite Hp in *. pose proof Hin as (n & Hn & Hn0 & Hsum & Hqs).
      destruct (read_persistent now _ _ _ Hn) as [Hrn Hdn]. rewrite Hrn in Hm.
      rewrite Hdn, Hm in Hs2. subst s2.
      destruct (e_val pe) as [c|product]; cbn [snd].
      * exists (n - quantity request). cbn [redis orders set_redis].
        rewrite lookup_insert_eq.
        split; [done|]. split; [lia|]. split; [lia|done].
      * apply (within_stock_sale pid S s1 _ n (quantity request)
                 (new_order created_at updated_at new_id request current_user product)
                 Hn Hin); [done|lia|done|done|done| |done].
        cbn [redis set_orders set_redis]. by rewrite lookup_insert_eq.
    + eapply within_stock_touches in Hin; [|exact Ht|by intros Heq%stock_key_inj].
      destruct (e_val pe) as [c|product]; cbn [snd]; [done|].
      destruct Hin as (n & Hn & Hn0 & Hsum & Hqs). exists n.
      cbn [redis orders set_orders]. split; [done|]. split; [done|]. split.
      * rewrite sold_app. cbn [new_order o_product_id].
        rewrite (bool_decide_eq_false_2 _ Hp). cbn. lia.
      * apply Forall_app. split; [done|]. constructor; [done|done].
  - destruct (decide (product_id request = pid)) as [Hp|Hp].
    + rewrite Hp in *. destruct Hin as (n & Hn & Hn0 & Hsum & Hqs).
      destruct (read_persistent now _ _ _ Hn) as [Hrn Hdn].
      apply reserve_Raise in Hres as [[_ ->]|(_ & _ & ->)]; [by exists n|].
      rewrite Hrn, Hdn. exists n. cbn [redis orders set_redis].
      by rewrite lookup_insert_eq.
    + eapply within_stock_touches; [exact Ht|by intros Heq%stock_key_inj|done].
Qed.

(** Purchases validated by the request model of server_enhanced.py, and
    cancellations, keep the stock of [pid] within [S]. *)
Lemma step_within_stock pid S s op :
  is_delivery op = false →
  within_stock pid S s →
  within_stock pid S (step FlashBuyRequest_valid_enhanced s op).
Proof.
  intros Hop Hin.
  destruct op as [now created_at updated_at new_id request user|now order_id user|now n];
    cbn [step]; [| |done].
  - unfold flash_buy_route, FlashBuyRequest_valid_enhanced.
    destruct (1 <=? quantity request) eqn:Hq; cbn [andb]; [|done].
    destruct (quantity request <=? max_per_order); [|done].
    apply flash_buy_within_stock; [lia|done].
  - by apply cancel_order_within_stock.
Qed.

(** For every sequence of validated purchases and of cancellations against
    a product whose stock counter starts at [S] with no order placed, the
    quantity held by pending or confirmed orders never exceeds [S] and the
    stock counter stays in [0, S]. *)
Theorem sales_stay_within_stock pid S ops s now :
  0 ≤ S →
  redis s !! stock_key pid = Some (mkEntry (RInt S) None) →
  orders s = [] →
  forallb (λ op, negb (is_delivery op)) ops = true →
  let s' := run FlashBuyRequest_valid_enhanced ops s in
  sold pid (orders s') ≤ S ∧ 0 ≤ stock_count now pid s' ≤ S.
Proof.
  intros HS Hstock Horders Hops s'.
  assert (within_stock pid S s) as Hin.
  { exists S. rewrite Horders. cbn. split; [done|]. split; [done|]. split; [lia|done]. }
  assert (within_stock pid S s') as (n & Hn & Hn0 & Hsum & Hq).
  { subst s'. clear Hstock Horders. revert s Hin Hops.
    induction ops as [|op ops IH]; intros s Hin Hops; [done|].
    cbn in Hops. apply andb_true_iff in Hops as [Hop Hops].
    cbn [run fold_left]. apply IH; [|done].
    apply step_within_stock; [by apply negb_true_iff|done]. }
  pose proof (sold_nonneg pid _ Hq).
  unfold stock_count, read_int, lookup_live. rewrite Hn. cbn. lia.
Qed.

(** ** Request validation *)

(** The request model of server_enhanced.py rejects a request whose
    quantity is not between 1 and the per-order maximum before the handler
    touches a store; so every order it lets [flash_buy] store has such a
    quantity. *)
Lemma flash_buy_route_enhanced_bounds
    now created_at updated_at new_id request current_user s :
  (FlashBuyRequest_valid_enhanced request = false →
     flash_buy_route FlashBuyRequest_valid_enhanced
       now created_at updated_at new_id request current_user s
       = (Raise RequestValidationError, s)) ∧
  (exec (flash_buy_route FlashBuyRequest_valid_enhanced
           now created_at updated_at new_id request current_user) s ≠ s →
     1 ≤ quantity request ≤ max_per_order).
Proof.
  unfold exec, flash_buy_route. split.
  - by intros ->.
  - unfold FlashBuyRequest_valid_enhanced.
    destruct (1 <=? quantity request) eqn:H1;
      destruct (quantity request <=? max_per_order) eqn:H2; cbn; try done. lia.
Qed.


End Properties.

(** * Properties of the rest of the shop *)

Section ShopProperties.

Context `{FloatOps float}.

Implicit Types (s : State float) (o : Order float).

(** ** Restocking *)

(** X1.  [restock_product] on a product that is not in the catalogue
    raises the 404 of an unknown product and changes nothing.  On a
    product that is, and a stock counter that the quantity fits (the
    quantity, the count and their sum are 64-bit integers), it returns the
    old count plus the quantity (which may be negative: the request model
    sets no bound), leaves the counter at that value and touches nothing
    but that counter. *)
Theorem restock_product_adds now request s :
  let pid := restock_product_id request in
  let s' := exec (restock_product now request) s in
  (lookup_live now (product_key pid) (redis s) = None →
     eval (restock_product now request) s = Raise UnknownProduct ∧ s' = s) ∧
  (is_Some (lookup_live now (product_key pid) (redis s)) →
   is_counter now (stock_key pid) s = true →
   fits now (stock_key pid) (restock_quantity request) s = true →
     eval (restock_product now request) s
       = Ok (stock_count now pid s + restock_quantity request) ∧
     stock_count now pid s' = stock_count now pid s + restock_quantity request ∧
     touches_only (stock_key pid) s s').
Proof.
  cbn zeta. unfold eval, exec, restock_product, redis_get. unfold_M. cbn [fst snd].
  split.
  - intros ->. done.
  - intros [e He] Hc Hfits. rewrite He. cbn [fmap option_fmap option_map].
    pose proof (redis_incrby_touches now (stock_key (restock_product_id request))
                  (restock_quantity request) s) as Ht.
    destruct (redis_incrby_counter now _ (restock_quantity request) s Hc Hfits)
      as (Hlive & Hincr).
    rewrite Hincr in Ht |- *. cbn [fst snd] in *.
    split; [done|]. split; [|done].
    unfold stock_count. by rewrite read_int_set.
Qed.

(** ** What a purchase leaves behind *)

(** X24.  [flash_buy] never returns and never publishes a message.  The
    dict it hands to [delay] is the one [insert_one] has just put an
    ObjectId into, which the JSON serialiser of the task refuses: a
    request that passes the rate limiter, finds its product and reserves
    its stock has its order stored and is then answered with the error of
    [delay], the stock taken and the order pending. *)
Theorem flash_buy_never_returns
    now created_at updated_at new_id request current_user s :
  is_ok (eval (flash_buy now created_at updated_at new_id request current_user) s) = false ∧
  queue (exec (flash_buy now created_at updated_at new_id request current_user) s)
    = queue s.
Proof.
  unfold eval, exec. rewrite flash_buy_unfold.
  pose proof (check_rate_limit_touches now (u_id current_user) "flash_buy" 10 60 s)
    as (_ & Hq & _).
  unfold exec in Hq.
  destruct (check_rate_limit now (u_id current_user) "flash_buy" 10 60 s) as [[[]|e0] s1];
    cbn [snd] in Hq; [|done].
  destruct (lookup_live now (product_key (product_id request)) (redis s1)) as [pe|];
    [|done].
  pose proof (reserve_touches now (stock_key (product_id request)) (quantity request) s1)
    as (_ & Hq2 & _).
  destruct (reserve now (stock_key (product_id request)) (quantity request) s1)
    as [[m|e1] s2]; cbn [snd] in Hq2; [|cbn; split; [done|congruence]].
  destruct (e_val pe); cbn; split; congruence.
Qed.

(** A purchase that has stored an order: what it went through and what it
    left. *)
Lemma flash_buy_stored_inv now created_at updated_at new_id request current_user s :
  orders (exec (flash_buy now created_at updated_at new_id request current_user) s)
    ≠ orders s →
  ∃ s1 product m,
    check_rate_limit now (u_id current_user) "flash_buy" 10 60 s = (Ok (), s1) ∧
    e_val <$> lookup_live now (product_key (product_id request)) (redis s1)
      = Some (RJson product) ∧
    m = read_int now (stock_key (product_id request)) s1 - quantity request ∧ 0 ≤ m ∧
    flash_buy now created_at updated_at new_id request current_user s =
      (Raise Uncaught,
       mkState (<[stock_key (product_id request) :=
                   mkEntry (RInt m) (key_deadline now (stock_key (product_id request)) s1)]>
                  (redis s1))
               (orders s ++ [new_order created_at updated_at new_id request
                                       current_user product])
               (queue s)).
Proof.
  unfold exec. rewrite flash_buy_unfold.
  pose proof (check_rate_limit_touches now (u_id current_user) "flash_buy" 10 60 s)
    as (Ho & Hq & _).
  unfold exec in Ho, Hq.
  destruct (check_rate_limit now (u_id current_user) "flash_buy" 10 60 s) as [[[]|e0] s1];
    cbn [snd] in *; [|congruence].
  destruct (lookup_live now (product_key (product_id request)) (redis s1)) as [pe|] eqn:Hp;
    cbn [snd]; [|congruence].
  destruct (reserve now (stock_key (product_id request)) (quantity request) s1)
    as [[m|e1] s2] eqn:Hres; cbn [snd].
  2: { apply reserve_Raise in Hres as [[_ ->]|(_ & _ & ->)]; cbn [orders set_redis];
         congruence. }
  apply reserve_Ok in Hres as (Hm & Hm0 & _ & ->).
  destruct pe as [[c|product] dp]; cbn [e_val snd orders set_redis]; [congruence|].
  intros _. exists s1, product, m. rewrite <- Ho, <- Hq.
  split; [done|]. split; [by rewrite Hp|]. split; [done|]. split; [done|]. done.
Qed.

Lemma find_order_app_fresh id (os : list (Order float)) o :
  find_order id os = None → o_id o = id → find_order id (os ++ [o]) = Some o.
Proof.
  unfold find_order. intros Hnone Hid. induction os as [|o' os IH]; cbn in *.
  - unfold has_id. by rewrite bool_decide_eq_true_2.
  - destruct (has_id id o'); [done|]. by apply IH.
Qed.

(** ** From purchase to cancellation and confirmation *)

(** X2.  A purchase followed by its cancellation is a round trip on the
    stock: when [flash_buy] has stored its order, under an order id not
    yet in use and on a persistent counter, and the buyer cancels within
    five minutes of the order's [created_at], [cancel_order] refunds
    exactly the quantity bought, the counter is back at the value it had
    before the purchase, and the order is cancelled. *)
Theorem purchase_then_cancel_restores_stock
    now created_at updated_at now' new_id request current_user s n :
  redis s !! stock_key (product_id request) = Some (mkEntry (RInt n) None) →
  find_order new_id (orders s) = None →
  orders (exec (flash_buy now created_at updated_at new_id request current_user) s)
    ≠ orders s →
  now' - created_at ≤ cancel_window →
  let s1 := exec (flash_buy now created_at updated_at new_id request current_user) s in
  let s2 := exec (cancel_order now' new_id current_user) s1 in
  eval (flash_buy now created_at updated_at new_id request current_user) s
    = Raise Uncaught ∧
  status_of new_id s1 = Some "pending" ∧
  redis s1 !! stock_key (product_id request)
    = Some (mkEntry (RInt (n - quantity request)) None) ∧
  eval (cancel_order now' new_id current_user) s1 = Ok (quantity request) ∧
  redis s2 !! stock_key (product_id request) = Some (mkEntry (RInt n) None) ∧
  status_of new_id s2 = Some "cancelled".
Proof.
  intros Hn Hfresh Hstored Hwin.
  pose proof Hstored as Hnot. unfold exec in Hnot. rewrite flash_buy_unfold in Hnot.
  destruct (flash_buy_stored_inv _ _ _ _ _ _ _ Hstored)
    as (s1 & product & m & Hrl & Hprod & Hm & Hm0 & Hfb).
  pose proof (check_rate_limit_touches now (u_id current_user) "flash_buy" 10 60 s)
    as (_ & _ & Hr).
  pose proof (check_rate_limit_touches now (u_id current_user) "flash_buy" 10 60 s)
    as (Ho1 & _ & _).
  unfold exec in Hr, Ho1. rewrite Hrl in Hr, Hnot, Ho1. cbn [snd] in Hr, Ho1.
  assert (redis s1 !! stock_key (product_id request) = Some (mkEntry (RInt n) None)) as Hn1.
  { rewrite Hr; [done|]. intros Heq. symmetry in Heq.
    by apply rate_key_not_stock_key in Heq. }
  destruct (read_persistent now _ _ _ Hn1) as [Hrn Hdn]. rewrite Hrn in Hm.
  rewrite Hdn, Hm in Hfb.
  (* the decrement went through: the counter and the quantity are 64-bit *)
  assert (int64 n = true ∧ int64 (quantity request) = true
          ∧ int64 (n - quantity request) = true) as (Hn64 & Hq64 & Hd64).
  { destruct (lookup_live now (product_key (product_id request)) (redis s1)) as [pe|];
      [|done].
    destruct (reserve now (stock_key (product_id request)) (quantity request) s1)
      as [[m'|e1] s2] eqn:Hres.
    2: { exfalso. apply reserve_Raise in Hres as [[_ ->]|(_ & _ & ->)];
           cbn [snd orders set_redis] in Hnot; by apply Hnot. }
    unfold reserve in Hres. unfold_M.
    destruct (redis_decr now (stock_key (product_id request)) (quantity request) s1)
      as [[m1|e1] s3] eqn:Hd; [|done].
    apply redis_decr_Ok in Hd as (Hm1 & H64 & Hq64 & Hn64 & _).
    rewrite Hrn in Hm1, Hn64. subst m1. done. }
  cbn zeta. unfold eval, exec. rewrite Hfb. cbn [fst snd].
  set (order := new_order created_at updated_at new_id request current_user product) in *.
  set (sold_state := mkState _ _ _).
  assert (find_order new_id (orders sold_state) = Some order) as Hfind.
  { subst sold_state. cbn [orders]. by apply find_order_app_fresh. }
  assert (redis sold_state !! stock_key (product_id request)
          = Some (mkEntry (RInt (n - quantity request)) None)) as Hstock.
  { subst sold_state. cbn [redis set_redis]. by rewrite lookup_insert_eq. }
  destruct (read_persistent now' _ _ _ Hstock) as [Hrs Hds].
  split; [done|]. split; [unfold status_of; by rewrite Hfind|]. split; [done|].
  assert (cancel_order now' new_id current_user sold_state =
            (Ok (quantity request),
             set_orders (update_first new_id (set_cancelled now') (orders sold_state))
               (set_redis (<[stock_key (product_id request) :=
                              mkEntry (RInt (n - quantity request + quantity request)) None]>
                             (redis sold_state)) sold_state))) as Hcancel.
  { unfold cancel_order, find_one, update_one. unfold_M. cbn [fst snd].
    rewrite Hfind. subst order. cbn [new_order o_user_id o_status o_created_at
      o_product_id o_quantity].
    rewrite bool_decide_eq_true_2 by done. rewrite bool_decide_eq_true_2 by done.
    cbn [negb]. destruct (cancel_window <? now' - created_at) eqn:Hlt; [lia|].
    edestruct (redis_incrby_counter now' (stock_key (product_id request))
                 (quantity request) sold_state) as (_ & ->).
    - unfold is_counter, lookup_live. by rewrite Hstock.
    - unfold fits. rewrite Hrs.
      replace (n - quantity request + quantity request) with n by lia.
      by rewrite Hq64, Hd64, Hn64.
    - by rewrite Hrs, Hds. }
  rewrite Hcancel. cbn [fst snd].
  split; [done|]. split.
  - cbn [redis set_orders set_redis]. rewrite lookup_insert_eq. do 3 f_equal. lia.
  - unfold status_of. cbn [orders set_orders set_redis].
    rewrite find_order_update_first by done. by rewrite Hfind.
Qed.

(** X3.  Once the confirmation task has run on the id of an order, the
    order is confirmed and its owner can no longer cancel it:
    [cancel_order] fails with InvalidState at whatever time, and the
    stores, the stock counter among them, stay as they are. *)
Theorem confirmed_order_cannot_be_cancelled
    now1 now2 order_data current_user s o :
  find_order (o_id order_data) (orders s) = Some o →
  o_user_id o = u_id current_user →
  let s2 := exec (process_order_task now1 order_data) s in
  status_of (o_id order_data) s2 = Some "confirmed" ∧
  redis s2 = redis s ∧
  eval (cancel_order now2 (o_id order_data) current_user) s2
    = Raise (InvalidState "confirmed") ∧
  exec (cancel_order now2 (o_id order_data) current_user) s2 = s2.
Proof.
  intros Hfind Hown. cbn zeta. unfold exec at 1 2 3 5.
  rewrite process_order_task_exec. cbn [snd].
  set (confirmed_state := set_orders _ s).
  assert (find_order (o_id order_data) (orders confirmed_state)
          = Some (set_confirmed now1 o)) as Hfind'.
  { subst confirmed_state. cbn [orders set_orders].
    rewrite find_order_update_first by done. by rewrite Hfind. }
  split; [unfold status_of; by rewrite Hfind'|]. split; [done|].
  unfold eval, exec.
  by rewrite (cancel_order_not_pending now2 _ _ _ _ Hfind' Hown).
Qed.

(** ** Reading an order back *)

Lemma find_own_order_Some order_id user_id (os : list (Order float)) o :
  find_own_order order_id user_id os = Some o →
  o ∈ os ∧ o_id o = order_id ∧ o_user_id o = user_id.
Proof.
  unfold find_own_order. intros Hf. apply find_some in Hf as [Hin Hb].
  apply andb_true_iff in Hb as [Hid Hu]. unfold has_id in Hid.
  apply bool_decide_eq_true in Hid, Hu. by rewrite list_elem_of_In.
Qed.

Lemma find_own_order_None order_id user_id (os : list (Order float)) :
  find_own_order order_id user_id os = None →
  ∀ o, o ∈ os → o_id o = order_id → o_user_id o ≠ user_id.
Proof.
  unfold find_own_order. intros Hf o Hin Hid Hu.
  apply list_elem_of_In in Hin.
  pose proof (find_none _ _ Hf o Hin) as Hb. cbn in Hb. unfold has_id in Hb.
  by rewrite !bool_decide_eq_true_2 in Hb.
Qed.

(** X4.  [get_order_status] reads and never writes.  What it returns is
    the view of a stored order that has the requested id and belongs to
    the requester.  When it raises, either the error is the 404 of a
    missing order and no stored order with that id belongs to the
    requester (the order of another user is indistinguishable from no
    order), or the requester's order has no [updated_at] and the handler
    fails on reading it. *)
Theorem get_order_status_own_only order_id current_user s :
  exec (get_order_status order_id current_user) s = s ∧
  match eval (get_order_status order_id current_user) s with
  | Ok view =>
      ∃ o, o ∈ orders s ∧ order_view o = Some view ∧
           o_id o = order_id ∧ o_user_id o = u_id current_user
  | Raise e =>
      (e = NotFound ∧
       ∀ o, o ∈ orders s → o_id o = order_id → o_user_id o ≠ u_id current_user) ∨
      (e = Uncaught ∧
       ∃ o, o ∈ orders s ∧ o_id o = order_id ∧ o_user_id o = u_id current_user ∧
            o_updated_at o = None)
  end.
Proof.
  unfold eval, exec, get_order_status.
  destruct (find_own_order order_id (u_id current_user) (orders s)) as [o|] eqn:Hf.
  - apply find_own_order_Some in Hf as (? & ? & ?).
    destruct (order_view o) as [view|] eqn:Hview; cbn [fst snd]; (split; [done|]).
    + by exists o.
    + right. split; [done|]. exists o. unfold order_view in Hview.
      by destruct (o_updated_at o).
  - cbn [fst snd]. split; [done|]. left. split; [done|]. by apply find_own_order_None.
Qed.

Lemma find_own_order_app_fresh order_id user_id (os : list (Order float)) o :
  find_order order_id os = None → o_id o = order_id →
  find_own_order order_id user_id (os ++ [o])
    = if bool_decide (o_user_id o = user_id) then Some o else None.
Proof.
  unfold find_own_order, find_order. intros Hnone Hid.
  induction os as [|o' os IH]; cbn in *.
  - unfold has_id. rewrite (bool_decide_eq_true_2 _ Hid). done.
  - destruct (has_id order_id o'); [done|]. by apply IH.
Qed.

(** X5.  The order that [flash_buy] has stored (the request itself is
    answered with the error of [delay]) reads back under its id: for the
    buyer as a pending order of the quantity and product asked for, with
    the two clock readings of its creation; any other user gets the
    404. *)
Theorem purchase_reads_back
    now created_at updated_at new_id request current_user other s :
  find_order new_id (orders s) = None →
  orders (exec (flash_buy now created_at updated_at new_id request current_user) s)
    ≠ orders s →
  u_id other ≠ u_id current_user →
  let s1 := exec (flash_buy now created_at updated_at new_id request current_user) s in
  (∃ view, eval (get_order_status new_id current_user) s1 = Ok view ∧
     o_id view = new_id ∧ o_user_id view = u_id current_user ∧
     o_status view = "pending" ∧ o_quantity view = quantity request ∧
     o_product_id view = product_id request ∧ o_created_at view = created_at ∧
     o_updated_at view = Some updated_at) ∧
  eval (get_order_status new_id other) s1 = Raise NotFound.
Proof.
  intros Hfresh Hstored Hother.
  destruct (flash_buy_stored_inv _ _ _ _ _ _ _ Hstored)
    as (s1 & product & m & _ & _ & _ & _ & Hfb).
  cbn zeta. unfold exec. rewrite Hfb. cbn [snd].
  set (order := new_order created_at updated_at new_id request current_user product) in *.
  unfold eval, get_order_status. cbn [orders].
  rewrite !(find_own_order_app_fresh new_id _ _ order Hfresh eq_refl).
  subst order. cbn [new_order o_user_id].
  rewrite bool_decide_eq_true_2 by done. rewrite bool_decide_eq_false_2 by done.
  cbn. split; [|done]. eexists. split; [done|]. done.
Qed.

(** ** Quotas *)

Lemma list_ascii_of_string_app (a b : string) :
  String.list_ascii_of_string (a +:+ b)
    = String.list_ascii_of_string a ++ String.list_ascii_of_string b.
Proof. induction a as [|c a IH]; simpl; [done|]. by f_equal. Qed.

Lemma string_app_inv_tail (a b w : string) : a +:+ w = b +:+ w → a = b.
Proof.
  intros Heq. apply (f_equal String.list_ascii_of_string) in Heq.
  rewrite !list_ascii_of_string_app in Heq. apply app_inv_tail in Heq.
  apply (f_equal String.string_of_list_ascii) in Heq.
  by rewrite !String.string_of_list_ascii_of_string in Heq.
Qed.

Lemma rate_key_inj_user user_id other action :
  rate_key user_id action = rate_key other action → user_id = other.
Proof.
  unfold rate_key. intros Heq. apply (inj (String.app "rate_limit:")) in Heq.
  by apply string_app_inv_tail in Heq.
Qed.

(** The decision of the limiter depends on its key alone. *)
Lemma check_rate_limit_eval_ext now user_id action limit window s s' :
  lookup_live now (rate_key user_id action) (redis s')
    = lookup_live now (rate_key user_id action) (redis s) →
  eval (check_rate_limit now user_id action limit window) s'
    = eval (check_rate_limit now user_id action limit window) s.
Proof.
  intros Heq.
  assert (∀ t : State float,
            fst (pipe_incr_expire now (rate_key user_id action) window t)
            = match lookup_live now (rate_key user_id action) (redis t) with
              | Some e =>
                  match e_val e with
                  | RInt c => if int64 c && int64 (c + 1) then Ok () else Raise Uncaught
                  | RJson _ => Raise Uncaught
                  end
              | None => Ok ()
              end) as Hpipe.
  { intros t. unfold pipe_incr_expire, redis_incr, redis_incrby. rewrite int64_one.
    cbn [negb].
    destruct (lookup_live now (rate_key user_id action) (redis t)) as [[[c|p] d]|];
      cbn [e_val]; [destruct (int64 c && int64 (c + 1))| |];
      by destruct (redis_expire _ _ _ _). }
  unfold eval, check_rate_limit, redis_get. unfold_M. cbn [fst snd].
  rewrite Heq.
  destruct (lookup_live now (rate_key user_id action) (redis s)) as [[[c|p] d]|] eqn:Hl;
    cbn [fmap option_fmap option_map e_val]; [|done|].
  - destruct (limit <=? c); [done|]. by rewrite !Hpipe, Heq, Hl.
  - by rewrite !Hpipe, Heq, Hl.
Qed.

(** [flash_buy] writes to two Redis keys at most: the buyer's rate-limit
    key and the stock key of the product. *)
Lemma flash_buy_redis_frame now created_at updated_at new_id request current_user s key :
  key ≠ rate_key (u_id current_user) "flash_buy" →
  key ≠ stock_key (product_id request) →
  redis (exec (flash_buy now created_at updated_at new_id request current_user) s) !! key
    = redis s !! key.
Proof.
  intros Hrate Hstock. unfold exec. rewrite flash_buy_unfold.
  pose proof (check_rate_limit_touches now (u_id current_user) "flash_buy" 10 60 s)
    as (_ & _ & Hr1).
  unfold exec in Hr1.
  destruct (check_rate_limit now (u_id current_user) "flash_buy" 10 60 s) as [[[]|e0] s1];
    cbn [snd] in *; [|by apply Hr1].
  rewrite <- (Hr1 key) by done.
  destruct (lookup_live now (product_key (product_id request)) (redis s1)) as [pe|];
    [|done].
  pose proof (reserve_touches now (stock_key (product_id request)) (quantity request) s1)
    as (_ & _ & Hr2).
  destruct (reserve now (stock_key (product_id request)) (quantity request) s1)
    as [[m|e1] s2]; cbn [snd] in *; [|by apply Hr2].
  rewrite <- (Hr2 key) by done.
  by destruct (e_val pe).
Qed.

(** X6.  Quotas are per user: a purchase attempt by one user, whatever
    its outcome, leaves the rate-limit key of every other user as it was,
    and so leaves unchanged what the limiter will answer that other user
    at any later time. *)
Theorem purchase_leaves_other_quotas
    now created_at updated_at now' new_id request current_user other s :
  u_id other ≠ u_id current_user →
  let s' := exec (flash_buy now created_at updated_at new_id request current_user) s in
  redis s' !! rate_key (u_id other) "flash_buy"
    = redis s !! rate_key (u_id other) "flash_buy" ∧
  eval (check_rate_limit now' (u_id other) "flash_buy" 10 60) s'
    = eval (check_rate_limit now' (u_id other) "flash_buy" 10 60) s.
Proof.
  intros Hother s'.
  assert (redis s' !! rate_key (u_id other) "flash_buy"
          = redis s !! rate_key (u_id other) "flash_buy") as Hkey.
  { apply flash_buy_redis_frame.
    - by intros Heq%rate_key_inj_user.
    - apply rate_key_not_stock_key. }
  split; [done|]. apply check_rate_limit_eval_ext. unfold lookup_live. by rewrite Hkey.
Qed.

(** X7.  Failed purchases use up quota.  When [flash_buy] fails because
    the product is unknown or out of stock, the attempt has still been
    counted: the buyer's rate-limit counter is one higher than before and
    its expiry is set to a minute from the attempt. *)
Theorem failed_purchase_counts now created_at updated_at new_id request current_user s e :
  eval (flash_buy now created_at updated_at new_id request current_user) s = Raise e →
  e = UnknownProduct ∨ e = OutOfStock →
  redis (exec (flash_buy now created_at updated_at new_id request current_user) s)
    !! rate_key (u_id current_user) "flash_buy"
  = Some (mkEntry (RInt (read_int now (rate_key (u_id current_user) "flash_buy") s + 1))
                  (Some (now + window_usec 60))).
Proof.
  unfold eval, exec. rewrite flash_buy_unfold.
  pose proof (check_rate_limit_Ok_entry now (u_id current_user) "flash_buy" 10 60 s)
    as Hentry.
  destruct (check_rate_limit now (u_id current_user) "flash_buy" 10 60 s) as [[[]|e0] s1]
    eqn:Hrl; cbn [fst snd].
  2: { intros [= <-] He. apply check_rate_limit_Raise in Hrl.
       by destruct Hrl as [-> | ->], He. }
  specialize (Hentry s1 ltac:(lia) eq_refl). rewrite <- Hentry.
  destruct (lookup_live now (product_key (product_id request)) (redis s1)) as [pe|];
    [|done].
  pose proof (reserve_touches now (stock_key (product_id request)) (quantity request) s1)
    as (_ & _ & Hr2).
  destruct (reserve now (stock_key (product_id request)) (quantity request) s1)
    as [[m|e1] s2] eqn:Hres; cbn [fst snd] in *.
  - destruct (e_val pe); cbn [fst snd]; intros [= <-] He; by destruct He.
  - intros _ _. by apply Hr2, rate_key_not_stock_key.
Qed.

(** ** The catalogue *)

Lemma product_key_inj pid pid' : product_key pid = product_key pid' → pid = pid'.
Proof. unfold product_key. cbn. intros Heq. by simplify_eq. Qed.

Lemma product_key_not_stock_key pid pid' : product_key pid ≠ stock_key pid'.
Proof. unfold product_key, stock_key. simpl. discriminate. Qed.

Lemma seed_products_run (ps : list (Product float)) : ∀ s,
  eval (seed_products ps) s = Ok () ∧
  orders (exec (seed_products ps) s) = orders s ∧
  queue (exec (seed_products ps) s) = queue s ∧
  (∀ key, (∀ p, p ∈ ps → key ≠ product_key (p_id p) ∧ key ≠ stock_key (p_id p)) →
     redis (exec (seed_products ps) s) !! key = redis s !! key) ∧
  (NoDup (p_id <$> ps) → ∀ p, p ∈ ps →
     redis (exec (seed_products ps) s) !! product_key (p_id p)
       = Some (mkEntry (RJson p) None) ∧
     redis (exec (seed_products ps) s) !! stock_key (p_id p)
       = Some (mkEntry (RInt (p_stock p)) None)).
Proof.
  induction ps as [|p0 ps IH]; intros s.
  - cbn. repeat (split; [done|]). intros _ p Hp. by apply elem_of_nil in Hp.
  - set (s0 := set_redis (<[stock_key (p_id p0) := mkEntry (RInt (p_stock p0)) None]>
                            (<[product_key (p_id p0) := mkEntry (RJson p0) None]> (redis s))) s).
    assert (∀ A (f : State float * Result () → A),
              f (exec (seed_products (p0 :: ps)) s, eval (seed_products (p0 :: ps)) s)
              = f (exec (seed_products ps) s0, eval (seed_products ps) s0)) as Hstep.
    { intros A f. unfold exec, eval. cbn [seed_products]. unfold seed_product, redis_set.
      unfold_M. cbn [fst snd]. reflexivity. }
    destruct (IH s0) as (Hev & Ho & Hq & Hframe & Hset).
    pose proof (Hstep _ snd) as Hev'. pose proof (Hstep _ fst) as Hex'. cbn [fst snd] in *.
    rewrite Hev', Hex'. split; [done|]. split; [done|]. split; [done|]. split.
    + intros key Hkey. rewrite Hframe.
      * destruct (Hkey p0 ltac:(left)) as [Hpk Hsk]. subst s0. cbn [redis set_redis].
        by rewrite !lookup_insert_ne.
      * intros p Hp. apply Hkey. by right.
    + intros Hnd p Hp. apply NoDup_cons in Hnd as [Hfresh Hnd].
      apply elem_of_cons in Hp as [->|Hp]; [|by apply Hset].
      assert (∀ q, q ∈ ps → p_id q ≠ p_id p0) as Hne.
      { intros q Hq' Heq. apply Hfresh. rewrite <- Heq. by apply list_elem_of_fmap_2. }
      rewrite !Hframe.
      * subst s0. cbn [redis set_redis]. split.
        -- rewrite lookup_insert_ne by (symmetry; apply product_key_not_stock_key).
           by rewrite lookup_insert_eq.
        -- by rewrite lookup_insert_eq.
      * intros q Hq'. split.
        -- intros Heq. symmetry in Heq. by apply product_key_not_stock_key in Heq.
        -- intros Heq%stock_key_inj. by apply (Hne q).
      * intros q Hq'. split.
        -- intros Heq%product_key_inj. by apply (Hne q).
        -- apply product_key_not_stock_key.
Qed.

Lemma products_NoDup : NoDup (p_id <$> products (float:=float)).
Proof.
  apply (bool_decide_unpack (NoDup (p_id <$> products (float:=float)))). by vm_compute.
Qed.

Lemma initialize_products_fresh s :
  let s' := exec initialize_products s in
  eval initialize_products s = Ok () ∧ orders s' = orders s ∧ queue s' = queue s ∧
  (∀ p, p ∈ products →
     redis s' !! product_key (p_id p) = Some (mkEntry (RJson p) None) ∧
     redis s' !! stock_key (p_id p) = Some (mkEntry (RInt (p_stock p)) None)) ∧
  (∀ key, (∀ p, p ∈ products → key ≠ product_key (p_id p) ∧ key ≠ stock_key (p_id p)) →
     redis s' !! key = redis s !! key).
Proof.
  cbn zeta. unfold initialize_products.
  destruct (seed_products_run products s) as (Hev & Ho & Hq & Hframe & Hset).
  split; [done|]. split; [done|]. split; [done|]. split; [|done].
  apply Hset, products_NoDup.
Qed.

(** X8.  [initialize_products], run on whatever the stores hold, succeeds
    and leaves each of the six catalogue products stored under its product
    key and its stock counter persistent and equal to the seed stock,
    whatever had been sold; the orders, the queue and every other Redis
    key are untouched. *)
Theorem initialize_products_resets_catalogue s :
  let s' := exec initialize_products s in
  eval initialize_products s = Ok () ∧ orders s' = orders s ∧ queue s' = queue s ∧
  (∀ p, p ∈ products →
     redis s' !! product_key (p_id p) = Some (mkEntry (RJson p) None) ∧
     redis s' !! stock_key (p_id p) = Some (mkEntry (RInt (p_stock p)) None)) ∧
  (∀ key, (∀ p, p ∈ products → key ≠ product_key (p_id p) ∧ key ≠ stock_key (p_id p)) →
     redis s' !! key = redis s !! key).
Proof.
  cbn zeta. unfold initialize_products.
  destruct (seed_products_run products s) as (Hev & Ho & Hq & Hframe & Hset).
  split; [done|]. split; [done|]. split; [done|]. split; [|done].
  apply Hset, products_NoDup.
Qed.

Lemma elem_of_redis_keys now prefix s key :
  key ∈ (filter (λ key, String.prefix prefix key = true ∧
                        is_Some (lookup_live now key (redis s)))
                (map_to_list (redis s)).*1)
  ↔ String.prefix prefix key = true ∧ is_Some (lookup_live now key (redis s)).
Proof.
  rewrite list_elem_of_filter. split; [by intros [? _]|]. intros [Hp Hl]. split; [done|].
  destruct Hl as [e He]. apply lookup_live_Some in He as [He _].
  apply list_elem_of_fmap. exists (key, e). split; [done|]. by apply elem_of_map_to_list.
Qed.

Lemma shown_Some now s key p' :
  shown now s key = Some p' ↔
  ∃ product d, lookup_live now key (redis s) = Some (mkEntry (RJson product) d) ∧
               p' = with_stock (stock_count now (p_id product) s) product.
Proof.
  unfold shown. destruct (lookup_live now key (redis s)) as [[[c|product] d]|]; cbn.
  - split; [done|]. by intros (? & ? & ? & ?).
  - split.
    + intros [= <-]. by exists product, d.
    + intros (? & ? & [= <- <-] & ->). done.
  - split; [done|]. by intros (? & ? & ? & ?).
Qed.

(** The loop reads and never writes; when it returns, it returns what
    [shown] gives for each key, in the order of the keys. *)
Lemma list_products_Ok now keys : ∀ s,
  exec (list_products now keys) s = s ∧
  ∀ listed, eval (list_products now keys) s = Ok listed →
            listed = omap (shown now s) keys.
Proof.
  induction keys as [|key keys IH]; intros s; [by split; [|intros ? [= <-]]|].
  destruct (IH s) as [Hexec Hlisted]. unfold exec, eval in *.
  assert (omap (shown now s) (key :: keys)
          = match shown now s key with
            | Some y => y :: omap (shown now s) keys
            | None => omap (shown now s) keys
            end) as -> by done.
  cbn [list_products]. unfold redis_get. unfold_M. cbn [fst snd].
  destruct (lookup_live now key (redis s)) as [[[c|product] d]|] eqn:Hl;
    cbn [fmap option_fmap option_map e_val].
  - done.
  - assert (shown now s key
            = Some (with_stock (stock_count now (p_id product) s) product)) as ->
      by (unfold shown; by rewrite Hl).
    unfold stock_count, read_int.
    destruct (lookup_live now (stock_key (p_id product)) (redis s)) as [[[n|q] d']|];
      cbn [fmap option_fmap option_map e_val]; [|done|];
      destruct (list_products now keys s) as [[rest|e] s1]; cbn [fst snd] in *;
      (split; [done|]); intros listed Heq; try done;
      injection Heq as <-; by rewrite (Hlisted rest eq_refl).
  - assert (shown now s key = None) as -> by (unfold shown; by rewrite Hl).
    done.
Qed.

(** The loop returns whenever each key that is there holds a product whose
    stock key is a counter. *)
Lemma list_products_total now keys : ∀ s,
  Forall (λ key, ∀ e, lookup_live now key (redis s) = Some e →
                      ∃ product, e_val e = RJson product ∧
                                 is_counter now (stock_key (p_id product)) s = true) keys →
  ∃ listed, eval (list_products now keys) s = Ok listed.
Proof.
  induction keys as [|key keys IH]; intros s Hall; [by eexists|].
  apply Forall_cons in Hall as [Hkey Hall]. destruct (IH s Hall) as [rest Hrest].
  pose proof (proj1 (list_products_Ok now keys s)) as Hexec.
  unfold exec, eval in *.
  cbn [list_products]. unfold redis_get. unfold_M. cbn [fst snd].
  destruct (lookup_live now key (redis s)) as [e|] eqn:Hl;
    cbn [fmap option_fmap option_map]; [|by eexists].
  destruct (Hkey e eq_refl) as (product & Hval & Hc). rewrite Hval.
  unfold is_counter in Hc.
  destruct (lookup_live now (stock_key (p_id product)) (redis s)) as [[[n|q] d']|];
    cbn [fmap option_fmap option_map e_val] in *; [|done|];
    destruct (list_products now keys s) as [r s1]; cbn [fst snd] in *;
    subst r; by eexists.
Qed.

(** X9.  While the catalogue holds at least one product, [get_products]
    changes nothing, and what it lists is exactly this: for each live key
    of the form [product:...] that holds a product, that product with its
    [stock] field replaced by the current value of its stock counter (0
    when the counter is missing). *)
Theorem get_products_shows_live_stock now s listed key0 :
  String.prefix "product:" key0 = true →
  is_Some (lookup_live now key0 (redis s)) →
  eval (get_products now) s = Ok listed →
  exec (get_products now) s = s ∧
  ∀ p', p' ∈ listed ↔
    ∃ key product d,
      String.prefix "product:" key = true ∧
      lookup_live now key (redis s) = Some (mkEntry (RJson product) d) ∧
      p' = with_stock (stock_count now (p_id product) s) product.
Proof.
  intros Hp0 Hl0. unfold eval, exec, get_products, redis_keys. unfold_M. cbn [fst snd].
  remember (filter _ (map_to_list (redis s)).*1) as keys eqn:Hkeys.
  assert (∀ key, key ∈ keys ↔
            String.prefix "product:" key = true ∧ is_Some (lookup_live now key (redis s)))
    as Hmem by (intros key; subst keys; apply elem_of_redis_keys).
  clear Hkeys.
  destruct keys as [|k rest].
  { exfalso. eapply elem_of_nil, (Hmem key0). by split. }
  destruct (list_products_Ok now (k :: rest) s) as [Hexec Hlisted]. unfold exec, eval in *.
  destruct (list_products now (k :: rest) s) as [r s1]. cbn [fst snd] in *. intros ->.
  split; [done|]. intros p'. rewrite (Hlisted listed eq_refl), list_elem_of_omap.
  split.
  - intros (key & Hkey & Hshown). apply Hmem in Hkey as [Hpre _].
    apply shown_Some in Hshown as (product & d & Hl & ->). by exists key, product, d.
  - intros (key & product & d & Hpre & Hl & ->). exists key. split.
    + apply Hmem. by rewrite Hl.
    + apply shown_Some. by exists product, d.
Qed.

Lemma prefix_product_key pid : String.prefix "product:" (product_key pid) = true.
Proof. unfold product_key. cbn. by destruct pid. Qed.

Lemma with_stock_same (p : Product float) : with_stock (p_stock p) p = p.
Proof. by destruct p. Qed.

(** X10.  On a store without a live product key, [get_products] seeds the
    catalogue before listing it: the store it leaves is the one
    [initialize_products] leaves, and what it lists is the six seed
    products, each with its seed stock. *)
Theorem get_products_seeds_empty_catalogue now s :
  (∀ key, String.prefix "product:" key = true → lookup_live now key (redis s) = None) →
  exec (get_products now) s = exec initialize_products s ∧
  ∃ listed, eval (get_products now) s = Ok listed ∧ ∀ p, p ∈ listed ↔ p ∈ products.
Proof.
  intros Hempty.
  destruct (initialize_products_fresh s) as (Hev & _ & _ & Hset & Hframe).
  cbn zeta in *. set (s' := exec initialize_products s) in *.
  assert (∀ key, String.prefix "product:" key = true →
                 is_Some (lookup_live now key (redis s')) →
                 ∃ p, p ∈ products ∧ key = product_key (p_id p)) as Hsix.
  { intros key Hpre Hlive.
    destruct (decide (key ∈ (product_key ∘ p_id) <$> products)) as [Hin|Hout].
    - apply list_elem_of_fmap in Hin as (p & -> & Hp). by exists p.
    - exfalso. assert (redis s' !! key = redis s !! key) as Hsame.
      { apply Hframe. intros p Hp. split.
        - intros ->. apply Hout, list_elem_of_fmap. by exists p.
        - intros ->. by cbn in Hpre. }
      pose proof (Hempty key Hpre) as Hnone. unfold lookup_live in Hlive, Hnone.
      rewrite Hsame, Hnone in Hlive. by destruct Hlive. }
  assert (∀ p, p ∈ products →
            lookup_live now (product_key (p_id p)) (redis s') = Some (mkEntry (RJson p) None) ∧
            shown now s' (product_key (p_id p)) = Some p ∧
            is_counter now (stock_key (p_id p)) s' = true) as Hshown.
  { intros p Hp. destruct (Hset p Hp) as [Hpk Hsk].
    assert (lookup_live now (product_key (p_id p)) (redis s') = Some (mkEntry (RJson p) None))
      as Hl by (unfold lookup_live; by rewrite Hpk).
    split; [done|]. split.
    - apply shown_Some. exists p, None. split; [done|].
      unfold stock_count, read_int, lookup_live. rewrite Hsk. cbn.
      by rewrite with_stock_same.
    - unfold is_counter, lookup_live. by rewrite Hsk. }
  assert (initialize_products s = (Ok (), s')) as Hinit.
  { subst s'. unfold eval, exec in *. destruct (initialize_products s) as [r s0].
    cbn [fst snd] in *. by subst r. }
  unfold eval, exec. unfold get_products, redis_keys. unfold_M. cbn [fst snd].
  remember (filter _ (map_to_list (redis s)).*1) as keys0 eqn:Hkeys0.
  assert (keys0 = []) as ->.
  { destruct keys0 as [|k rest]; [done|]. exfalso.
    assert (k ∈ k :: rest) as Hin by left. rewrite Hkeys0 in Hin.
    apply elem_of_redis_keys in Hin as [Hpre Hlive].
    rewrite (Hempty k Hpre) in Hlive. by destruct Hlive. }
  rewrite Hinit.
  remember (filter _ (map_to_list (redis s')).*1) as keys eqn:Hkeys.
  assert (∀ key, key ∈ keys ↔
            String.prefix "product:" key = true ∧ is_Some (lookup_live now key (redis s')))
    as Hmem by (intros key; subst keys; apply elem_of_redis_keys).
  clear Hkeys Hkeys0.
  destruct (list_products_Ok now keys s') as [Hexec Hlisted].
  destruct (list_products_total now keys s') as [listed Hok].
  { apply Forall_forall. intros key Hkey e He.
    apply Hmem in Hkey as [Hpre Hlive]. destruct (Hsix key Hpre Hlive) as (p & Hp & ->).
    destruct (Hshown p Hp) as (Hl & _ & Hc). rewrite Hl in He. injection He as <-.
    by exists p. }
  unfold exec, eval in *.
  destruct (list_products now keys s') as [r s1]. cbn [fst snd] in *. subst r s1.
  split; [done|]. exists listed. split; [done|].
  intros p. rewrite (Hlisted listed eq_refl), list_elem_of_omap. split.
  - intros (key & Hkey & Hs). apply Hmem in Hkey as [Hpre Hlive].
    destruct (Hsix key Hpre Hlive) as (q & Hq & ->).
    destruct (Hshown q Hq) as (_ & Hsq & _). rewrite Hsq in Hs. by injection Hs as <-.
  - intros Hp. destruct (Hshown p Hp) as (Hl & Hsp & _).
    exists (product_key (p_id p)). split; [|done].
    apply Hmem. split; [apply prefix_product_key|]. by rewrite Hl.
Qed.

(** ** Reading the orders of a user *)

#[local] Instance newer_first_trans : Transitive (newer_first (float:=float)).
Proof. unfold newer_first. intros a b c ? ?. lia. Qed.

#[local] Instance newer_first_total : Total (newer_first (float:=float)).
Proof. unfold newer_first. intros a b. lia. Qed.

(** X11.  [get_user_orders] reads and never writes.  It chooses at most
    100 stored orders, all of the requester, newest first, and leaves out
    no order of the requester that is newer than one it chooses; when the
    requester has at most 100 orders it chooses them all.  It returns the
    views of the chosen orders, in this order, unless one of them has no
    [updated_at]: then it fails on reading it. *)
Theorem get_user_orders_newest_first current_user s :
  let own := filter (λ o, o_user_id o = u_id current_user) (orders s) in
  exec (get_user_orders current_user) s = s ∧
  ∃ chosen,
    (∀ views, eval (get_user_orders current_user) s = Ok views ↔
              Forall2 (λ o view, order_view o = Some view) chosen views) ∧
    (eval (get_user_orders current_user) s = Raise Uncaught ↔
     Exists (λ o, o_updated_at o = None) chosen) ∧
    (length chosen ≤ 100)%nat ∧
    (∀ o, o ∈ chosen → o ∈ orders s ∧ o_user_id o = u_id current_user) ∧
    StronglySorted newer_first chosen ∧
    (∀ o o', o ∈ chosen → o' ∈ own → o' ∉ chosen → o_created_at o' ≤ o_created_at o) ∧
    ((length own ≤ 100)%nat → chosen ≡ₚ own).
Proof.
  intros own.
  set (sorted := merge_sort newer_first own).
  assert (get_user_orders current_user s
          = match mapM order_view (take 100 sorted) with
            | Some views => (Ok views, s)
            | None => (Raise Uncaught, s)
            end) as Hrun by done.
  unfold eval, exec. rewrite Hrun. clear Hrun.
  split; [by destruct (mapM _ _)|].
  exists (take 100 sorted). split; [|split].
  { intros views. rewrite <- mapM_Some.
    destruct (mapM order_view (take 100 sorted)); cbn [fst]; split; congruence. }
  { assert (∀ o : Order float, order_view o = None ↔ o_updated_at o = None) as Hview.
    { intros o. unfold order_view. by destruct (o_updated_at o). }
    destruct (mapM order_view (take 100 sorted)) as [views|] eqn:Hm; cbn [fst].
    - split; [done|]. intros Hex. exfalso.
      assert (mapM order_view (take 100 sorted) = None) as Hnone; [|congruence].
      apply mapM_None. eapply Exists_impl; [exact Hex|]. intros o. apply Hview.
    - split; [|done]. intros _. apply mapM_None in Hm.
      eapply Exists_impl; [exact Hm|]. intros o. apply Hview. }
  assert (StronglySorted newer_first sorted) as Hsorted.
  { apply StronglySorted_merge_sort; apply _. }
  assert (sorted ≡ₚ own) as Hperm by apply merge_sort_Permutation.
  split; [rewrite length_take; lia|]. split; [|split; [|split]].
  - intros o Ho. apply subseteq_take in Ho. rewrite Hperm in Ho.
    subst own. by apply list_elem_of_filter in Ho as [? ?].
  - rewrite <- (take_drop 100 sorted) in Hsorted.
    by apply StronglySorted_app_1_l in Hsorted.
  - intros o o' Ho Ho' Hout. rewrite <- Hperm in Ho'.
    rewrite <- (take_drop 100 sorted) in Hsorted, Ho'.
    apply elem_of_app in Ho' as [?|Ho']; [done|].
    by apply (StronglySorted_app_1_elem_of _ _ _ o o' Hsorted).
  - intros Hlen. rewrite take_ge; [done|]. by rewrite Hperm.
Qed.

End ShopProperties.

(** * Properties of input sanitising *)

Module TextProperties.

Import Text.

Lemma replace_app char replacement (a b : text) :
  replace char replacement (a ++ b)
    = replace char replacement a ++ replace char replacement b.
Proof. unfold replace. apply bind_app. Qed.

Lemma replace_cons char replacement c (t : text) :
  replace char replacement (c :: t)
    = (if (c =? char)%N then replacement else [c]) ++ replace char replacement t.
Proof. done. Qed.

Lemma remove_filter char (t : text) :
  replace char [] t = filter (λ c, c ≠ char) t.
Proof.
  induction t as [|c t IH]; [done|]. rewrite replace_cons, IH, filter_cons.
  destruct (N.eqb_spec c char) as [->|Hne], (decide (_ ≠ char)); done.
Qed.

Lemma remove_all_filter (chars : list N) : ∀ t : text,
  foldl (λ t char, replace char [] t) t chars = filter (λ c, c ∉ chars) t.
Proof.
  induction chars as [|char chars IH]; intros t; cbn [foldl].
  - induction t as [|c t IHt]; [done|].
    rewrite filter_cons_True by apply not_elem_of_nil. by f_equal.
  - rewrite IH, remove_filter, list_filter_filter. apply list_filter_iff.
    intros c. rewrite not_elem_of_cons. tauto.
Qed.

Lemma lstrip_suffix (t : text) : lstrip t `suffix_of` t.
Proof.
  induction t as [|c t IH]; cbn; [done|].
  destruct (isspace c); [by apply suffix_cons_r|done].
Qed.

Lemma lstrip_head (t : text) c : head (lstrip t) = Some c → isspace c = false.
Proof.
  induction t as [|c' t IH]; cbn; [done|].
  destruct (isspace c') eqn:Hs; [done|]. cbn. by intros [= <-].
Qed.

Lemma lstrip_id (t : text) : (∀ c, head t = Some c → isspace c = false) → lstrip t = t.
Proof. destruct t as [|c t]; cbn; [done|]. intros Hh. by rewrite (Hh c eq_refl). Qed.

Lemma rstrip_prefix (t : text) : rstrip t `prefix_of` t.
Proof.
  unfold rstrip. destruct (lstrip_suffix (reverse t)) as [k Hk].
  exists (reverse k). apply (inj reverse). by rewrite reverse_app, !reverse_involutive.
Qed.

Lemma rstrip_last (t : text) c : last (rstrip t) = Some c → isspace c = false.
Proof. unfold rstrip. rewrite last_reverse. apply lstrip_head. Qed.

Lemma rstrip_id (t : text) : (∀ c, last t = Some c → isspace c = false) → rstrip t = t.
Proof.
  intros Hl. unfold rstrip. rewrite lstrip_id; [apply reverse_involutive|].
  intros c. rewrite head_reverse. apply Hl.
Qed.

Lemma strip_sublist (t : text) : strip t `sublist_of` t.
Proof.
  unfold strip. destruct (rstrip_prefix (lstrip t)) as [k1 Hk1].
  destruct (lstrip_suffix t) as [k2 Hk2].
  rewrite Hk2 at 2. rewrite Hk1 at 2.
  by apply sublist_inserts_l, sublist_inserts_r.
Qed.

Lemma strip_trimmed (t : text) : trimmed (strip t).
Proof.
  unfold strip. split; [|apply rstrip_last].
  intros c Hc. destruct (rstrip_prefix (lstrip t)) as [k Hk].
  apply (lstrip_head t c). rewrite Hk.
  destruct (rstrip (lstrip t)); [done|]. done.
Qed.

Lemma strip_id (t : text) : trimmed t → strip t = t.
Proof. intros [Hh Hl]. unfold strip. rewrite (lstrip_id t Hh). by apply rstrip_id. Qed.

Lemma trimmed_nil : trimmed [].
Proof. by split. Qed.

Lemma sanitize_input_filter (t : text) :
  sanitize_input t = strip (filter (λ c, c ∉ dangerous_chars) t).
Proof.
  destruct t as [|c t]; [done|]. unfold sanitize_input. by rewrite remove_all_filter.
Qed.

Lemma sanitize_input_no_dangerous (t : text) :
  Forall (λ c, c ∉ dangerous_chars) (sanitize_input t).
Proof.
  rewrite sanitize_input_filter. apply Forall_forall. intros c Hc.
  pose proof (elem_of_sublist _ _ c Hc (strip_sublist _)) as Hc'.
  by apply list_elem_of_filter in Hc' as [? _].
Qed.

Lemma sanitize_input_trimmed (t : text) : trimmed (sanitize_input t).
Proof. rewrite sanitize_input_filter. apply strip_trimmed. Qed.

(** X12.  Whatever the input, the output of [sanitize_input] contains
    none of the six dangerous characters, is a subsequence of the input
    (it adds and reorders nothing), and neither starts nor ends with
    whitespace. *)
Theorem sanitize_input_clean (t : text) :
  Forall (λ c, c ∉ dangerous_chars) (sanitize_input t) ∧
  sanitize_input t `sublist_of` t ∧
  trimmed (sanitize_input t).
Proof.
  split; [apply sanitize_input_no_dangerous|]. split; [|apply sanitize_input_trimmed].
  rewrite sanitize_input_filter. etrans; [apply strip_sublist|]. apply sublist_filter.
Qed.

Lemma filter_all (P : N → Prop) `{!∀ c, Decision (P c)} (t : text) :
  Forall P t → filter P t = t.
Proof.
  induction 1 as [|c t Hc _ IH]; [done|]. rewrite filter_cons_True by done. by f_equal.
Qed.

Lemma sanitize_input_fixed (t : text) :
  Forall (λ c, c ∉ dangerous_chars) t → trimmed t → sanitize_input t = t.
Proof.
  intros Hclean Htrim. rewrite sanitize_input_filter.
  rewrite filter_all by done. by apply strip_id.
Qed.

(** X13.  [sanitize_input] is idempotent, and the strings it leaves
    unchanged are exactly those that contain no dangerous character and
    neither start nor end with whitespace. *)
Theorem sanitize_input_idempotent (t : text) :
  sanitize_input (sanitize_input t) = sanitize_input t ∧
  (sanitize_input t = t ↔ Forall (λ c, c ∉ dangerous_chars) t ∧ trimmed t).
Proof.
  pose proof (sanitize_input_no_dangerous t) as Hclean.
  pose proof (sanitize_input_trimmed t) as Htrim.
  split; [by apply sanitize_input_fixed|]. split.
  - intros Heq. by rewrite Heq in Hclean, Htrim.
  - intros [? ?]. by apply sanitize_input_fixed.
Qed.

Lemma replace_bind char replacement (f : N → text) (t : text) :
  replace char replacement (t ≫= f) = t ≫= (λ c, replace char replacement (f c)).
Proof.
  induction t as [|c t IH]; [done|].
  change ((c :: t) ≫= f) with (f c ++ (t ≫= f)).
  by rewrite replace_app, IH.
Qed.

Lemma bind_singleton (t : text) : t ≫= (λ c, [c]) = t.
Proof. induction t as [|c t IH]; [done|]. cbn. by f_equal. Qed.

Lemma escaped_chain (c : N) :
  replace 38 (codes "&amp;")
    (replace 39 (codes "&#x27;")
       (replace 34 (codes "&quot;")
          (replace 62 (codes "&gt;") (replace 60 (codes "&lt;") [c]))))
  = escaped c.
Proof.
  unfold escaped.
  destruct (N.eqb_spec c 60) as [->|H60]; [done|].
  destruct (N.eqb_spec c 62) as [->|H62]; [done|].
  destruct (N.eqb_spec c 34) as [->|H34]; [done|].
  destruct (N.eqb_spec c 39) as [->|H39]; [done|].
  destruct (N.eqb_spec c 38) as [->|H38]; [done|].
  rewrite !replace_cons.
  apply N.eqb_neq in H60, H62, H34, H39, H38.
  cbn [replace mbind list_bind app]. rewrite H60. cbn. rewrite H62. cbn. rewrite H34. cbn.
  rewrite H39. cbn. by rewrite H38.
Qed.

Lemma entity_safe (entity : text) (c : N) :
  forallb (λ c, negb (c =? 60) && negb (c =? 62) && negb (c =? 34) && negb (c =? 39))%N
          entity = true →
  c ∈ entity → c ∉ [60; 62; 34; 39]%N.
Proof.
  rewrite forallb_forall. intros Hall Hc. apply list_elem_of_In, Hall in Hc.
  rewrite !not_elem_of_cons. lazy beta in Hc.
  repeat (apply andb_prop in Hc as [Hc ?]).
  repeat match goal with H : negb _ = true |- _ => apply negb_true_iff, N.eqb_neq in H end.
  by auto using not_elem_of_nil.
Qed.

(** X14.  The [sanitize_input] of middleware.py escapes the ampersand
    last, after it has written the entities of the other characters, so
    it escapes those entities again: its output is the input with '<'
    turned into "&amp;lt;", '>' into "&amp;gt;", the double quote into
    "&amp;quot;", the single quote into "&amp;#x27;" and '&' into "&amp;",
    stripped of surrounding whitespace.  None of '<', '>' and the two
    quotes is left in it. *)
Theorem middleware_sanitize_input_double_escapes (t : text) :
  middleware_sanitize_input t = strip (t ≫= escaped) ∧
  Forall (λ c, c ∉ [60; 62; 34; 39]%N) (middleware_sanitize_input t).
Proof.
  assert (middleware_sanitize_input t = strip (t ≫= escaped)) as Heq.
  { destruct t as [|c0 t0]; [done|].
    unfold middleware_sanitize_input. cbn [foldl entities].
    generalize (c0 :: t0). clear c0 t0. intros t.
    rewrite <- (bind_singleton t) at 1.
    rewrite !replace_bind. f_equal.
    induction t as [|c t IH]; [done|].
    change ((c :: t) ≫= ?f) with (f c ++ (t ≫= f)).
    by rewrite IH, escaped_chain. }
  split; [done|]. rewrite Heq. apply Forall_forall. intros c Hc.
  pose proof (elem_of_sublist _ _ c Hc (strip_sublist _)) as Hc'.
  apply list_elem_of_bind in Hc' as (c0 & Hc0 & _). revert Hc0. unfold escaped.
  destruct (N.eqb_spec c0 60); [apply entity_safe; by vm_compute|].
  destruct (N.eqb_spec c0 62); [apply entity_safe; by vm_compute|].
  destruct (N.eqb_spec c0 34); [apply entity_safe; by vm_compute|].
  destruct (N.eqb_spec c0 39); [apply entity_safe; by vm_compute|].
  destruct (N.eqb_spec c0 38); [apply entity_safe; by vm_compute|].
  intros ->%list_elem_of_singleton. rewrite !not_elem_of_cons. by auto using not_elem_of_nil.
Qed.

End TextProperties.

(** * Properties of pagination *)

Section PaginationProperties.

Context {A : Type} (collection : list A) (query : A → bool).

Lemma paginate_query_Ok (page page_size : Z) :
  1 ≤ page → 1 ≤ page_size →
  paginate_query collection query page page_size =
    Ok (mkPage
          (take (Z.to_nat page_size)
                (drop (Z.to_nat ((page - 1) * page_size)) (List.filter query collection)))
          page page_size
          (Z.of_nat (length (List.filter query collection)))
          ((Z.of_nat (length (List.filter query collection)) + page_size - 1) `div` page_size)
          (page <? (Z.of_nat (length (List.filter query collection)) + page_size - 1)
                     `div` page_size)
          (1 <? page)).
Proof.
  intros Hpage Hsize. unfold paginate_query.
  destruct (Z.ltb_spec ((page - 1) * page_size) 0); [nia|].
  destruct (Z.leb_spec page_size 0); [lia|]. done.
Qed.

Lemma paginate_query_Ok_inv (page page_size : Z) (pg : Page A) :
  paginate_query collection query page page_size = Ok pg →
  1 ≤ page ∧ 1 ≤ page_size.
Proof.
  unfold paginate_query.
  destruct (Z.ltb_spec ((page - 1) * page_size) 0); [done|].
  destruct (Z.leb_spec page_size 0); [done|]. intros _. nia.
Qed.

Lemma ceil_div_bounds (total page_size : Z) :
  1 ≤ page_size →
  ((total + page_size - 1) `div` page_size - 1) * page_size < total
    ≤ (total + page_size - 1) `div` page_size * page_size.
Proof.
  intros Hsize.
  pose proof (Z.div_mod (total + page_size - 1) page_size ltac:(lia)).
  pose proof (Z.mod_pos_bound (total + page_size - 1) page_size ltac:(lia)).
  nia.
Qed.


Lemma page_items_eq (page page_size : Z) :
  1 ≤ page → 1 ≤ page_size →
  page_items collection query page page_size
    = take (Z.to_nat page_size)
           (drop (Z.to_nat ((page - 1) * page_size)) (List.filter query collection)).
Proof. intros Hpage Hsize. unfold page_items. by rewrite paginate_query_Ok. Qed.

Lemma pages_concat (page_size : Z) (n : nat) :
  1 ≤ page_size →
  mjoin ((λ i, page_items collection query (Z.of_nat i) page_size) <$> seq 1 n)
    = take (n * Z.to_nat page_size) (List.filter query collection).
Proof.
  intros Hsize. induction n as [|n IH]; [done|].
  rewrite seq_S, fmap_app, join_app, IH. cbn [fmap list_fmap mjoin list_join].
  rewrite app_nil_r, page_items_eq by lia.
  replace (Z.to_nat ((Z.of_nat (1 + n) - 1) * page_size))
    with (n * Z.to_nat page_size)%nat by nia.
  rewrite take_take_drop. f_equal. lia.
Qed.

(** X16.  The pages 1 to [total_pages], in this order, hold the results
    of the query: each result on one page, none twice, in the order of the
    collection. *)
Theorem pages_partition_results (page page_size : Z) (pg : Page A) :
  paginate_query collection query page page_size = Ok pg →
  mjoin ((λ i, page_items collection query (Z.of_nat i) page_size)
           <$> seq 1 (Z.to_nat (pg_total_pages pg)))
    = List.filter query collection.
Proof.
  intros Hpg. destruct (paginate_query_Ok_inv _ _ _ Hpg) as [Hpage Hsize].
  rewrite paginate_query_Ok in Hpg by done. injection Hpg as <-. cbn.
  rewrite pages_concat by done. apply take_ge.
  pose proof (ceil_div_bounds (Z.of_nat (length (List.filter query collection)))
                              page_size Hsize) as Hceil.
  nia.
Qed.

End PaginationProperties.

(** * Properties of accounts *)

Section AccountsProperties.

Context {Salt Token : Type}.
Context (hashpw : Salt → string → string).
Context (checkpw : string → string → bool).
Context (create_jwt_token : Z → string → string → Token).

Lemma find_email_None (email : string) (users : list UserDoc) :
  find_email email users = None ↔ email ∉ ud_email <$> users.
Proof.
  unfold find_email. induction users as [|u users IH]; cbn.
  - split; [intros _; apply not_elem_of_nil|done].
  - rewrite not_elem_of_cons. case_bool_decide as Hu.
    + split; [done|]. intros [Hne _]. by destruct Hne.
    + rewrite IH. split; [by split|by intros [_ ?]].
Qed.

Lemma find_email_app_fresh (email : string) (users : list UserDoc) (u : UserDoc) :
  find_email email users = None → ud_email u = email →
  find_email email (users ++ [u]) = Some u.
Proof.
  unfold find_email. intros Hnone Hu. induction users as [|u' users IH]; cbn in *.
  - by rewrite bool_decide_eq_true_2.
  - case_bool_decide; [done|]. by apply IH.
Qed.

(** X17.  [signup] keeps the e-mail addresses of [db.users] distinct: an
    address that is registered is refused with "Email already registered"
    and the collection is left as it was; otherwise one document is added,
    with the new address. *)
Theorem signup_keeps_emails_unique (now : Z) (new_id : string) (salt : Salt)
    (user_data : UserSignup) (users : list UserDoc) :
  NoDup (ud_email <$> users) →
  NoDup (ud_email <$> (signup hashpw create_jwt_token now new_id salt user_data users).2) ∧
  (su_email user_data ∈ ud_email <$> users →
   signup hashpw create_jwt_token now new_id salt user_data users = (inl EmailTaken, users)) ∧
  (su_email user_data ∉ ud_email <$> users →
   ud_email <$> (signup hashpw create_jwt_token now new_id salt user_data users).2
     = (ud_email <$> users) ++ [su_email user_data]).
Proof.
  intros Hnd. unfold signup.
  destruct (find_email (su_email user_data) users) as [u|] eqn:Hfind; cbn.
  - split; [done|]. split; [done|]. intros Hfresh.
    apply find_email_None in Hfresh. congruence.
  - apply find_email_None in Hfind. rewrite fmap_app. cbn. split; [|done].
    apply NoDup_app. split; [done|]. split; [|apply NoDup_singleton].
    intros e He ->%list_elem_of_singleton. done.
Qed.

(** X18.  A user who has signed up can log in: with the address and the
    password of the signup, [login] answers with the same user and a token
    for the same id, provided bcrypt accepts a password against its own
    hash; with a password that bcrypt rejects against that hash, it answers
    "Invalid credentials".  Neither changes [db.users]. *)
Theorem signup_then_login (now now' : Z) (new_id : string) (salt : Salt)
    (user_data : UserSignup) (users users' : list UserDoc) (session : Session) :
  (∀ salt password, checkpw password (hashpw salt password) = true) →
  signup hashpw create_jwt_token now new_id salt user_data users = (inr session, users') →
  login checkpw create_jwt_token now' (mkUserLogin (su_email user_data) (su_password user_data)) users'
    = (inr (mkSession (create_jwt_token now' new_id (su_email user_data))
                      (se_user session)), users') ∧
  ∀ password, checkpw password (hashpw salt (su_password user_data)) = false →
    login checkpw create_jwt_token now' (mkUserLogin (su_email user_data) password) users'
      = (inl InvalidCredentials, users').
Proof.
  intros Hbcrypt. unfold signup, login.
  destruct (find_email (su_email user_data) users) as [u|] eqn:Hfind; [done|].
  intros [= <- <-]. cbn [li_email li_password].
  erewrite find_email_app_fresh; [|done|done]. cbn.
  rewrite Hbcrypt. split; [done|]. by intros password ->.
Qed.

End AccountsProperties.

(** * Properties of the product search *)

Section SearchProperties.

Context `{FloatOps float} `{FloatOrd float}.
Context (lower : string → string).

Local Abbreviation M := (M (float:=float)).

Lemma hit_cons now sq s i range :
  omap (hit lower now sq s) (i :: range)
    = match hit lower now sq s i with
      | Some p => p :: omap (hit lower now sq s) range
      | None => omap (hit lower now sq s) range
      end.
Proof. done. Qed.

(** The loop reads only, and what it returns is what [hit] shows. *)
Lemma search_loop_Ok now sq range : ∀ s,
  exec (search_loop lower now sq range) s = s ∧
  ∀ found, eval (search_loop lower now sq range) s = Ok found →
           found = omap (hit lower now sq s) range.
Proof.
  induction range as [|i range IH]; intros s; [by split; [|intros ? [= <-]]|].
  destruct (IH s) as [Hexec Hfound]. unfold exec, eval in *.
  rewrite hit_cons. cbn [search_loop]. unfold redis_get. unfold_M. cbn [fst snd].
  unfold hit at 1. unfold read_int.
  destruct (lookup_live now ("product:prod_" +:+ i) (redis s)) as [[[c|product] d]|];
    cbn [fmap option_fmap option_map e_val]; [done| |done].
  destruct (lookup_live now ("stock:prod_" +:+ i) (redis s)) as [[[n|q] d']|];
    cbn [fmap option_fmap option_map e_val]; [|done|];
    destruct (search_loop lower now sq range s) as [[rest|e] s1];
    cbn [fst snd] in *; (split; [done|]); intros found Heq; try done;
    injection Heq as <-; rewrite (Hfound rest eq_refl);
    by destruct (matches _ _ _).
Qed.

Lemma length_omap_le {A B} (f : A → option B) (l : list A) :
  (length (omap f l) ≤ length l)%nat.
Proof. induction l as [|x l IH]; cbn; [done|]. destruct (f x); cbn; lia. Qed.

Lemma matches_inv sq product :
  matches lower sq product = true →
  (∀ q, sq_q sq = Some q → q ≠ "" →
     contains (lower q) (lower (p_name product +:+ " " +:+ p_description product)) = true) ∧
  (∀ category, sq_category sq = Some category → category ≠ "" → category = "general") ∧
  (∀ min_price, sq_min_price sq = Some min_price → flt (p_price product) min_price = false) ∧
  (∀ max_price, sq_max_price sq = Some max_price → flt max_price (p_price product) = false) ∧
  (sq_flash_sale_only sq = true → p_flash_sale product = true).
Proof.
  unfold matches. cbn zeta. intros Hm.
  destruct (sq_flash_sale_only sq), (p_flash_sale product); cbn in Hm; try done;
  (destruct (sq_max_price sq) as [hi|];
     [destruct (flt hi (p_price product)) eqn:Hhi; [done|]|]);
  (destruct (sq_min_price sq) as [lo|];
     [destruct (flt (p_price product) lo) eqn:Hlo; [done|]|]);
  (destruct (sq_category sq) as [[|a category]|];
     [|case_bool_decide as Hcat; [|done]|]);
  (destruct (sq_q sq) as [[|b q]|];
     [|destruct (contains _ _) eqn:Hq; [|done]|]);
  repeat split; intros; simplify_eq; done.
Qed.

(** X19.  Every product that [search_products] returns passes each filter
    that was given: its name and description hold the query, its price is
    neither below [min_price] nor above [max_price], and it is on flash
    sale if [flash_sale_only] is set.  At most six products are returned,
    [count] is their number, and since no stored product carries a
    category, a category other than "general" finds nothing. *)
Theorem search_products_respects_filters now sq s r :
  eval (search_products lower now sq) s = Ok r →
  sr_count r = length (sr_results r) ∧ (length (sr_results r) ≤ 6)%nat ∧
  Forall (λ product,
    (∀ q, sq_q sq = Some q → q ≠ "" →
       contains (lower q)
                (lower (p_name product +:+ " " +:+ p_description product)) = true) ∧
    (∀ min_price, sq_min_price sq = Some min_price →
       flt (p_price product) min_price = false) ∧
    (∀ max_price, sq_max_price sq = Some max_price →
       flt max_price (p_price product) = false) ∧
    (sq_flash_sale_only sq = true → p_flash_sale product = true)) (sr_results r) ∧
  (∀ category, sq_category sq = Some category → category ≠ "" → category ≠ "general" →
     sr_results r = []).
Proof.
  intros Hr. unfold eval, search_products in Hr. unfold_M.
  destruct (search_loop_Ok now sq ["1"; "2"; "3"; "4"; "5"; "6"] s) as [_ Hfound].
  unfold eval in Hfound.
  destruct (search_loop lower now sq _ s) as [[found|e] s1]; cbn [fst snd] in *;
    [|done].
  injection Hr as <-. cbn [sr_results sr_count]. specialize (Hfound found eq_refl).
  assert (Forall (λ product, matches lower sq product = true) found) as Hall.
  { subst found. apply Forall_forall. intros product Hp.
    apply list_elem_of_omap in Hp as (i & _ & Hi). unfold hit in Hi.
    destruct (lookup_live _ _ _) as [[[c|stored] d]|]; cbn in Hi; try done.
    destruct (matches _ _ _) eqn:Hm; [|done]. by injection Hi as <-. }
  split; [done|]. split; [|split].
  - subst found. etrans; [apply length_omap_le|]. done.
  - eapply Forall_impl; [exact Hall|]. intros product Hm.
    destruct (matches_inv _ _ Hm) as (? & _ & ? & ? & ?). done.
  - intros category Hc Hne Hgen. destruct found as [|product found']; [done|].
    apply Forall_cons in Hall as [Hm _].
    destruct (matches_inv _ _ Hm) as (_ & Hcat & _). by destruct (Hgen (Hcat _ Hc Hne)).
Qed.

(** X20.  Whatever the store held, a search without filters right after
    [initialize_products] returns the six seed products, in the order of
    the seed list and each with its seed stock. *)
Theorem search_products_after_seeding now s :
  eval (search_products lower now (mkSearchQuery None None None None false))
       (exec initialize_products s)
    = Ok (mkSearchResult products 6 None).
Proof.
  destruct (initialize_products_fresh s) as (_ & _ & _ & Hset & _).
  cbn zeta in *. set (s' := exec initialize_products s) in *.
  assert (∀ p, p ∈ products (float:=float) →
            redis_get now (product_key (p_id p)) s' = (Ok (Some (RJson p)), s') ∧
            redis_get now (stock_key (p_id p)) s' = (Ok (Some (RInt (p_stock p))), s'))
    as Hget.
  { intros p Hp. destruct (Hset p Hp) as [Hpk Hsk].
    unfold redis_get, lookup_live. by rewrite Hpk, Hsk. }
  unfold eval, search_products. unfold_M.
  assert (search_loop lower now (mkSearchQuery None None None None false)
            ["1"; "2"; "3"; "4"; "5"; "6"] s' = (Ok products, s')) as ->; [|done].
  assert (Forall (λ p, redis_get now (product_key (p_id p)) s' = (Ok (Some (RJson p)), s') ∧
            redis_get now (stock_key (p_id p)) s' = (Ok (Some (RInt (p_stock p))), s'))
            (products (float:=float))) as Hall by (by apply Forall_forall).
  unfold products in Hall |- *.
  repeat (apply Forall_cons in Hall as [[? ?] Hall]). clear Hall Hget Hset.
  cbn [p_id p_stock] in *. cbn [search_loop]. unfold_M.
  repeat match goal with
  | Hkey : context [product_key ?pid] |- _ =>
      let key := eval vm_compute in (product_key pid) in
      change (product_key pid) with key in Hkey
  | Hkey : context [stock_key ?pid] |- _ =>
      let key := eval vm_compute in (stock_key pid) in
      change (stock_key pid) with key in Hkey
  | |- context [(?prefix +:+ ?i)%string] =>
      let key := eval vm_compute in (prefix +:+ i)%string in
      change (prefix +:+ i)%string with key
  end.
  repeat match goal with
  | Hkey : redis_get now _ s' = _ |- _ => rewrite Hkey; clear Hkey; cbn beta iota
  end.
  done.
Qed.


End SearchProperties.

(** * Properties of the subscriptions *)

Module WebSocketProperties.

Import WebSocket.

Lemma remove_first_app_fresh (x : string) (l : list string) :
  x ∉ l → remove_first x (l ++ [x]) = l.
Proof.
  induction l as [|y l IH]; cbn; intros Hx.
  - by rewrite bool_decide_eq_true_2.
  - apply not_elem_of_cons in Hx as [Hne Hx].
    rewrite bool_decide_eq_false_2 by done. by rewrite IH.
Qed.





(** X21.  For a connected client, unsubscribing undoes a subscription to a
    product that was not on its list: the list is as before, and so are
    the rooms if the client was not in the product's room. *)
Theorem unsubscribe_undoes_subscribe (sid product_id : string) (client : Client)
    (s : Server) :
  connected_clients s !! sid = Some client →
  product_id ≠ "" →
  product_id ∉ subscriptions client →
  let s' := unsubscribe_product sid (Some product_id)
              (subscribe_product sid (Some product_id) s) in
  connected_clients s' = connected_clients s ∧
  ((product_room product_id, sid) ∉ rooms s → rooms s' = rooms s).
Proof.
  intros Hc Hne Hfresh. destruct product_id as [|a p]; [done|].
  destruct client as [date subs]. cbn in Hfresh.
  cbn -[product_room]. rewrite Hc. cbn -[product_room].
  rewrite lookup_insert_eq. cbn -[product_room].
  rewrite bool_decide_eq_true_2 by (apply elem_of_app; right; by left).
  cbn -[product_room]. rewrite remove_first_app_fresh by done. split.
  - rewrite insert_insert_eq. by apply insert_id.
  - intros Hout. apply set_eq. intros pair.
    rewrite elem_of_difference, elem_of_union, !elem_of_singleton.
    split; [by intros [[?|?] ?]|]. intros Hin. split; [by right|]. by intros ->.
Qed.

(** X22.  A product the client subscribes to twice stays on its list
    after one unsubscription, while the client has left the product's
    room: the list names a product whose updates the client no longer
    gets. *)
Theorem double_subscription_outlives_unsubscribe (sid product_id : string)
    (client : Client) (s : Server) :
  connected_clients s !! sid = Some client →
  product_id ≠ "" →
  let s' := unsubscribe_product sid (Some product_id)
              (subscribe_product sid (Some product_id)
                 (subscribe_product sid (Some product_id) s)) in
  product_id ∈ subscribed s' sid ∧ (product_room product_id, sid) ∉ rooms s'.
Proof.
  intros Hc Hne. destruct product_id as [|a p]; [done|].
  destruct client as [date subs].
  unfold subscribed. cbn -[product_room]. rewrite Hc. cbn -[product_room].
  rewrite lookup_insert_eq. cbn -[product_room]. rewrite lookup_insert_eq.
  cbn -[product_room].
  rewrite bool_decide_eq_true_2 by (apply elem_of_app; right; by left).
  cbn -[product_room]. rewrite lookup_insert_eq. cbn -[product_room]. split.
  - destruct (decide (String a p ∈ subs)) as [Hin|Hout].
    + apply list_elem_of_split in Hin as (l1 & l2 & ->).
      clear. induction l1 as [|y l1 IH]; cbn.
      * rewrite bool_decide_eq_true_2 by done. rewrite !elem_of_app.
        right. by left.
      * case_bool_decide; [|by right]. subst y.
        rewrite !elem_of_app, elem_of_cons. left. right. by left.
    + rewrite <- (assoc_L (++)). cbn.
      assert (∀ l, String a p ∉ subs →
                remove_first (String a p) (subs ++ String a p :: l) = subs ++ l) as Hrm.
      { clear. intros l. induction subs as [|y subs IH]; cbn; intros Hx.
        - by rewrite bool_decide_eq_true_2.
        - apply not_elem_of_cons in Hx as [Hne Hx].
          rewrite bool_decide_eq_false_2 by done. by rewrite IH. }
      rewrite Hrm by done. apply elem_of_app. right. by left.
  - rewrite elem_of_difference, elem_of_singleton. by intros [_ ?].
Qed.


End WebSocketProperties.

(** * Concrete runs *)

#[local] Existing Instance Shop.no_prices.

Import Shop.

(** ** The rate limiter *)

(** C6, on the failing run.  One user sends a request every 50 seconds,
    under the limit of [flash_buy] (10 requests per 60 seconds).  The
    first request sets the key to expire at second 60; the second, at
    second 50, moves the expiry to second 110, and at second 61 the
    counter, which the window of the first request should have taken with
    it, is still there.  So the key never expires, the counter reaches 10,
    and the eleventh request, 500 seconds after the first, is denied:
    a user who never sent more than two requests within a minute. *)
Theorem expiry_refreshed_on_every_admission :
  let first := exec (check_rate_limit 0 "u1" "flash_buy" 10 60) (seeded 50) in
  let second := exec (check_rate_limit (seconds 50) "u1" "flash_buy" 10 60) first in
  key_deadline 0 (rate_key "u1" "flash_buy") first = Some (seconds 60) ∧
  key_deadline (seconds 50) (rate_key "u1" "flash_buy") second = Some (seconds 110) ∧
  eval (redis_get (seconds 61) (rate_key "u1" "flash_buy")) second = Ok (Some (RInt 2)) ∧
  fst (admissions ((λ i, seconds (50 * Z.of_nat i)) <$> seq 0 11)
         "u1" "flash_buy" 10 60 (seeded 50))
    = replicate 10 true ++ [false].
Proof. by vm_compute. Qed.



(** ** Purchase *)

Lemma flash_buy_reservation_witness :
  eval (check_rate_limit 0 "u1" "flash_buy" 10 60) (seeded 1) = Ok () ∧
  eval (redis_get 0 (product_key "prod_1")) (seeded 1) = Ok (Some (RJson headphones)) ∧
  is_counter 0 (stock_key "prod_1") (seeded 1) = true ∧
  (* one unit asked of one: reserved *)
  1 ≤ stock_count 0 "prod_1" (seeded 1) ∧
  eval (reserve 0 (stock_key "prod_1") 1) (seeded 1) = Ok 0 ∧
  stock_count 0 "prod_1" (exec (flash_buy 0 0 0 "o1" (buy 1) alice) (seeded 1)) = 0 ∧
  (* two units asked of one: out of stock, counter restored *)
  stock_count 0 "prod_1" (seeded 1) < 2 ∧
  eval (reserve 0 (stock_key "prod_1") 2) (seeded 1) = Raise OutOfStock ∧
  eval (flash_buy 0 0 0 "o1" (buy 2) alice) (seeded 1) = Raise OutOfStock ∧
  stock_count 0 "prod_1" (exec (flash_buy 0 0 0 "o1" (buy 2) alice) (seeded 1)) = 1.
Proof.
  assert (int64_min < 1 ≤ int64_max) as Hq1 by (vm_compute; split; congruence).
  assert (int64_min < 2 ≤ int64_max) as Hq2 by (vm_compute; split; congruence).
  pose proof (flash_buy_reservation 0 0 0 "o1" (buy 1) alice (seeded 1) headphones
                eq_refl eq_refl eq_refl eq_refl Hq1 eq_refl) as [Hsold _].
  pose proof (flash_buy_reservation 0 0 0 "o1" (buy 2) alice (seeded 1) headphones
                eq_refl eq_refl eq_refl eq_refl Hq2 eq_refl) as [_ Hout].
  assert (1 ≤ stock_count 0 "prod_1" (seeded 1)) as H1 by (vm_compute; congruence).
  assert (stock_count 0 "prod_1" (seeded 1) < 2) as H2 by (vm_compute; congruence).
  destruct (Hsold H1) as (Hs1 & Hs2 & _). destruct (Hout H2) as (Ho1 & Ho2 & Ho3 & _).
  repeat split; done.
Defined.

(** C2, refuted as stated, on three requests that server.py lets through.
    (a) 2^63 units, one more than the largest integer the store holds,
    against a stock of 50: the counter holds less than is asked, yet the
    reservation does not fail with OutOfStock, Redis refuses the decrement
    and the handler fails with that error.  (b) -(2^63 - 1) units against
    a stock of 50: the counter holds at least that, yet the reservation
    does not succeed, the difference is beyond the largest integer and
    Redis refuses.  (c) -2^63 units against a counter at -1: the counter
    holds at least that and the difference is 2^63 - 1, yet Redis refuses
    to negate the amount.  In all three the counter is as it was. *)
Lemma reservation_beyond_int64 :
  (let q := int64_max + 1 in
   stock_count 0 "prod_1" (seeded 50) < q ∧
   eval (reserve 0 (stock_key "prod_1") q) (seeded 50) = Raise Uncaught ∧
   eval (flash_buy 0 0 0 "o1" (buy q) alice) (seeded 50) = Raise Uncaught ∧
   stock_count 0 "prod_1" (exec (flash_buy 0 0 0 "o1" (buy q) alice) (seeded 50)) = 50) ∧
  (let q := - int64_max in
   q ≤ stock_count 0 "prod_1" (seeded 50) ∧
   eval (reserve 0 (stock_key "prod_1") q) (seeded 50) = Raise Uncaught ∧
   stock_count 0 "prod_1" (exec (flash_buy 0 0 0 "o1" (buy q) alice) (seeded 50)) = 50) ∧
  (let q := int64_min in
   let s := run FlashBuyRequest_valid
              [Purchase 0 0 0 "o1" (buy (-1)) alice;
               Purchase 0 0 0 "o2" (buy 1) bob;
               Cancel (seconds 1) "o1" alice]
              (seeded 0) in
   stock_count (seconds 2) "prod_1" s = -1 ∧
   q ≤ stock_count (seconds 2) "prod_1" s ∧
   int64 (stock_count (seconds 2) "prod_1" s - q) = true ∧
   eval (reserve (seconds 2) (stock_key "prod_1") q) s = Raise Uncaught ∧
   stock_count (seconds 2) "prod_1"
     (exec (flash_buy (seconds 2) 0 0 "o3" (buy q) alice) s) = -1).
Proof. vm_compute. repeat split; congruence. Qed.


(** C3, on the failing requests.  The request model of server.py accepts
    quantities 0, -5 and 11: each request goes through the handler, which
    stores an order of that quantity and changes the stock counter (the
    request for -5 units adds 5 to it) before it fails in [delay]; the
    request model of server_enhanced.py rejects each of them before the
    handler runs. *)
Theorem flash_buy_accepts_any_quantity :
  let purchase qty :=
    flash_buy_route FlashBuyRequest_valid 0 0 0 "o1" (buy qty) alice (seeded 50) in
  let validated qty :=
    flash_buy_route FlashBuyRequest_valid_enhanced 0 0 0 "o1" (buy qty) alice (seeded 50) in
  (fst (purchase 0) = Raise Uncaught ∧
   o_quantity <$> find_order "o1" (orders (snd (purchase 0))) = Some 0) ∧
  (fst (purchase (-5)) = Raise Uncaught ∧
   o_quantity <$> find_order "o1" (orders (snd (purchase (-5)))) = Some (-5) ∧
   stock_count 0 "prod_1" (snd (purchase (-5))) = 55) ∧
  (fst (purchase 11) = Raise Uncaught ∧
   o_quantity <$> find_order "o1" (orders (snd (purchase 11))) = Some 11 ∧
   stock_count 0 "prod_1" (snd (purchase 11)) = 39) ∧
  validated 0 = (Raise RequestValidationError, seeded 50) ∧
  validated (-5) = (Raise RequestValidationError, seeded 50) ∧
  validated 11 = (Raise RequestValidationError, seeded 50).
Proof. by vm_compute. Qed.

(** ** Cancellation *)

Lemma cancel_order_failures_witness :
  eval (cancel_order (seconds 1) "o7" alice) after_purchase = Raise NotFound ∧
  eval (cancel_order (seconds 1) "o1" bob) after_purchase = Raise Forbidden ∧
  eval (cancel_order (seconds 2) "o1" alice)
       (exec (cancel_order (seconds 1) "o1" alice) after_purchase)
    = Raise (InvalidState "cancelled") ∧
  eval (cancel_order (seconds 301) "o1" alice) after_purchase = Raise WindowExpired ∧
  exec (cancel_order (seconds 301) "o1" alice) after_purchase = after_purchase.
Proof.
  pose proof (cancel_order_failures (seconds 1) "o7" alice after_purchase)
    as (Hnone & _ & _).
  pose proof (cancel_order_failures (seconds 1) "o1" bob after_purchase)
    as (_ & Hother & _).
  pose proof (cancel_order_failures (seconds 2) "o1" alice
                (exec (cancel_order (seconds 1) "o1" alice) after_purchase))
    as (_ & Hstate & _).
  pose proof (cancel_order_failures (seconds 301) "o1" alice after_purchase)
    as (_ & Hlate & Hsame).
  split; [exact (Hnone eq_refl)|].
  split.
  { refine (proj1 (Hother _ eq_refl) _). vm_compute. congruence. }
  split.
  { refine (proj1 (proj2 (Hstate _ eq_refl)) eq_refl _). vm_compute. congruence. }
  assert (eval (cancel_order (seconds 301) "o1" alice) after_purchase = Raise WindowExpired)
    as Hexpired.
  { refine (proj2 (proj2 (Hlate _ eq_refl)) eq_refl eq_refl _). vm_compute. congruence. }
  split; [exact Hexpired|]. exact (Hsame _ Hexpired).
Defined.

Lemma cancel_order_refunds_witness :
  let cancelled := exec (cancel_order (seconds 1) "o1" alice) after_purchase in
  find_order "o1" (orders after_purchase)
    = Some (new_order 0 0 "o1" (buy 1) alice headphones) ∧
  seconds 1 - 0 ≤ cancel_window ∧
  is_counter (seconds 1) (stock_key "prod_1") after_purchase = true ∧
  fits (seconds 1) (stock_key "prod_1") 1 after_purchase = true ∧
  eval (cancel_order (seconds 1) "o1" alice) after_purchase = Ok 1 ∧
  stock_count (seconds 1) "prod_1" after_purchase = 1 ∧
  stock_count (seconds 1) "prod_1" cancelled = 2 ∧
  status_of "o1" cancelled = Some "cancelled" ∧
  eval (cancel_order (seconds 2) "o1" alice) cancelled = Raise (InvalidState "cancelled").
Proof.
  intros cancelled.
  assert (seconds 1 - 0 ≤ cancel_window) as Hwin by (vm_compute; congruence).
  pose proof (cancel_order_refunds (seconds 1) "o1" alice after_purchase
                (new_order 0 0 "o1" (buy 1) alice headphones)
                eq_refl eq_refl eq_refl Hwin eq_refl eq_refl)
    as (Hok & Hstock & _ & _ & Hstatus & _ & Hagain).
  split; [done|]. split; [exact Hwin|]. split; [done|]. split; [done|].
  split; [exact Hok|].
  split; [done|]. split; [exact Hstock|]. split; [exact Hstatus|].
  exact (proj1 (Hagain (seconds 2))).
Defined.

(** C5, refuted as stated.  Alice's order of one unit is pending and one
    second old when she cancels it, and a restock has brought the stock
    counter to the largest integer the store holds.  The cancellation
    fails: Redis refuses the increment, nothing is added to the counter
    and the order stays pending. *)
Lemma refund_beyond_int64 :
  let s := exec (restock_product 0 (mkRestockRequest "prod_1" (int64_max - 1)))
             after_purchase in
  let s' := exec (cancel_order (seconds 1) "o1" alice) s in
  find_order "o1" (orders s) = Some (new_order 0 0 "o1" (buy 1) alice headphones) ∧
  seconds 1 - 0 ≤ cancel_window ∧
  stock_count (seconds 1) "prod_1" s = int64_max ∧
  eval (cancel_order (seconds 1) "o1" alice) s = Raise Uncaught ∧
  stock_count (seconds 1) "prod_1" s' = int64_max ∧
  status_of "o1" s' = Some "pending".
Proof. vm_compute. repeat split; congruence. Qed.

(** ** Confirmation *)

(** C9, refuted as stated.  The task runs on Alice's order at second 2 and
    again at second 4: the order is not as the first run left it, its
    [updated_at] has moved. *)
Lemma redelivery_moves_updated_at :
  let order_data := new_order 0 0 "o1" (buy 1) alice headphones in
  let once := exec (process_order_task (seconds 2) order_data) after_purchase in
  let twice := exec (process_order_task (seconds 4) order_data) once in
  twice ≠ once ∧
  o_updated_at <$> find_order "o1" (orders once) = Some (Some (seconds 2)) ∧
  o_updated_at <$> find_order "o1" (orders twice) = Some (Some (seconds 4)).
Proof.
  cbn zeta. split; [|by vm_compute].
  intros Heq.
  apply (f_equal (λ s, o_updated_at <$> find_order "o1" (orders s))) in Heq.
  vm_compute in Heq. congruence.
Qed.

(** C8, on the failing run.  Alice's request for the only unit leaves her
    order o1 in the collection; she cancels it, which refunds the unit and
    sets the order to cancelled.  Then the confirmation task runs on a
    message that carries the id o1: the order, cancelled and refunded, is
    set to confirmed.  (The message is not one that [flash_buy] has
    published: it publishes none.) *)
Theorem confirmation_overwrites_cancelled :
  let cancelled :=
    run FlashBuyRequest_valid_enhanced
      [Purchase 0 0 0 "o1" (buy 1) alice; Cancel (seconds 1) "o1" alice] (seeded 1) in
  let order_data := new_order 0 0 "o1" (buy 1) alice headphones in
  let confirmed := exec (process_order_task (seconds 3) order_data) cancelled in
  queue cancelled = [] ∧
  status_of "o1" cancelled = Some "cancelled" ∧
  stock_count (seconds 1) "prod_1" cancelled = 1 ∧
  eval (process_order_task (seconds 3) order_data) cancelled = Ok ("o1", "confirmed") ∧
  status_of "o1" confirmed = Some "confirmed" ∧
  stock_count (seconds 3) "prod_1" confirmed = 1.
Proof. by vm_compute. Qed.

(** ** Stock accounting *)

(** C1, on two failing runs of purchases and cancellations.  With the
    request model of server.py a request for -5 units goes through the
    handler: the counter goes from 50 to 55 and an order of -5 units is
    stored.  And from an empty stock, a request for -5 units, a request for
    5 units and the cancellation of the first leave the counter at -5 with
    5 units on a pending order. *)
Theorem stock_bound_broken :
  (let s := run FlashBuyRequest_valid [Purchase 0 0 0 "o1" (buy (-5)) alice] (seeded 50) in
   stock_count (seconds 1) "prod_1" s = 55 ∧
   o_quantity <$> find_order "o1" (orders s) = Some (-5)) ∧
  (let s := run FlashBuyRequest_valid
              [Purchase 0 0 0 "o1" (buy (-5)) alice;
               Purchase (seconds 1) (seconds 1) (seconds 1) "o2" (buy 5) bob;
               Cancel (seconds 2) "o1" alice]
              (seeded 0) in
   status_of "o1" s = Some "cancelled" ∧ status_of "o2" s = Some "pending" ∧
   stock_count (seconds 3) "prod_1" s = -5 ∧ sold "prod_1" (orders s) = 5).
Proof. by vm_compute. Qed.

(** Three validated purchases against two units, one of them cancelled:
    the bound of [sales_stay_within_stock] at work. *)
Example sales_stay_within_stock_run :
  let ops := [Purchase 0 0 0 "o1" (buy 1) alice;
              Purchase (seconds 1) (seconds 1) (seconds 1) "o2" (buy 1) bob;
              Purchase (seconds 2) (seconds 2) (seconds 2) "o3" (buy 1) alice;
              Cancel (seconds 3) "o2" bob] in
  let s' := run FlashBuyRequest_valid_enhanced ops (seeded 2) in
  sold "prod_1" (orders s') = 1 ∧ stock_count (seconds 4) "prod_1" s' = 1 ∧
  sold "prod_1" (orders s') ≤ 2 ∧ 0 ≤ stock_count (seconds 4) "prod_1" s' ≤ 2.
Proof.
  intros ops s'.
  pose proof (sales_stay_within_stock "prod_1" 2 ops (seeded 2) (seconds 4)
                ltac:(lia) eq_refl eq_refl eq_refl) as Hbound.
  split; [by vm_compute|]. split; [by vm_compute|]. exact Hbound.
Qed.

(** ** The catalogue and the orders read back *)

Lemma restock_product_adds_witness :
  eval (restock_product 0 (mkRestockRequest "prod_9" 5)) (seeded 2) = Raise UnknownProduct ∧
  fits 0 (stock_key "prod_1") 5 (seeded 2) = true ∧
  eval (restock_product 0 (mkRestockRequest "prod_1" 5)) (seeded 2) = Ok 7 ∧
  stock_count 0 "prod_1" (exec (restock_product 0 (mkRestockRequest "prod_1" 5)) (seeded 2))
    = 7.
Proof.
  pose proof (restock_product_adds 0 (mkRestockRequest "prod_9" 5) (seeded 2))
    as [Hunknown _].
  pose proof (restock_product_adds 0 (mkRestockRequest "prod_1" 5) (seeded 2))
    as [_ Hadd].
  destruct (Hunknown eq_refl) as [Hraise _].
  destruct (Hadd (ex_intro _ _ eq_refl) eq_refl eq_refl) as (Hok & Hcount & _).
  split; [exact Hraise|]. split; [reflexivity|]. split; [exact Hok|]. exact Hcount.
Defined.

Lemma purchase_then_cancel_restores_stock_witness :
  let s1 := exec (flash_buy 0 0 0 "o1" (buy 1) alice) (seeded 2) in
  let s2 := exec (cancel_order (seconds 10) "o1" alice) s1 in
  orders s1 ≠ orders (seeded 2) ∧
  seconds 10 - 0 ≤ cancel_window ∧
  eval (flash_buy 0 0 0 "o1" (buy 1) alice) (seeded 2) = Raise Uncaught ∧
  status_of "o1" s1 = Some "pending" ∧
  redis s1 !! stock_key "prod_1" = Some (mkEntry (RInt (2 - 1)) None) ∧
  eval (cancel_order (seconds 10) "o1" alice) s1 = Ok 1 ∧
  redis s2 !! stock_key "prod_1" = Some (mkEntry (RInt 2) None) ∧
  status_of "o1" s2 = Some "cancelled".
Proof.
  assert (orders (exec (flash_buy 0 0 0 "o1" (buy 1) alice) (seeded 2)) ≠ orders (seeded 2))
    as Hstored by (vm_compute; congruence).
  assert (seconds 10 - 0 ≤ cancel_window) as Hwin by (vm_compute; congruence).
  split; [exact Hstored|]. split; [exact Hwin|].
  exact (purchase_then_cancel_restores_stock 0 0 0 (seconds 10) "o1" (buy 1) alice (seeded 2) 2
           eq_refl eq_refl Hstored Hwin).
Defined.

Lemma confirmed_order_cannot_be_cancelled_witness :
  let order_data := new_order 0 0 "o1" (buy 1) alice headphones in
  let s2 := exec (process_order_task (seconds 2) order_data) after_purchase in
  find_order "o1" (orders after_purchase) = Some order_data ∧
  status_of "o1" s2 = Some "confirmed" ∧
  redis s2 = redis after_purchase ∧
  eval (cancel_order (seconds 3) "o1" alice) s2 = Raise (InvalidState "confirmed") ∧
  exec (cancel_order (seconds 3) "o1" alice) s2 = s2.
Proof.
  split; [reflexivity|].
  exact (confirmed_order_cannot_be_cancelled (seconds 2) (seconds 3)
           (new_order 0 0 "o1" (buy 1) alice headphones) alice after_purchase
           (new_order 0 0 "o1" (buy 1) alice headphones) eq_refl eq_refl).
Defined.

Lemma purchase_reads_back_witness :
  let s1 := exec (flash_buy 0 7 9 "o1" (buy 1) alice) (seeded 2) in
  orders s1 ≠ orders (seeded 2) ∧
  u_id bob ≠ u_id alice ∧
  (∃ view, eval (get_order_status "o1" alice) s1 = Ok view ∧
     o_id view = "o1" ∧ o_user_id view = "u1" ∧ o_status view = "pending" ∧
     o_quantity view = 1 ∧ o_product_id view = "prod_1" ∧ o_created_at view = 7 ∧
     o_updated_at view = Some 9) ∧
  eval (get_order_status "o1" bob) s1 = Raise NotFound.
Proof.
  assert (orders (exec (flash_buy 0 7 9 "o1" (buy 1) alice) (seeded 2)) ≠ orders (seeded 2))
    as Hstored by (vm_compute; congruence).
  assert (u_id bob ≠ u_id alice) as Hother by discriminate.
  split; [exact Hstored|]. split; [exact Hother|].
  exact (purchase_reads_back 0 7 9 "o1" (buy 1) alice bob (seeded 2)
           eq_refl Hstored Hother).
Defined.

Lemma purchase_leaves_other_quotas_witness :
  let s' := exec (flash_buy 0 0 0 "o1" (buy 1) alice) (seeded 2) in
  u_id bob ≠ u_id alice ∧
  redis s' !! rate_key "u2" "flash_buy" = redis (seeded 2) !! rate_key "u2" "flash_buy" ∧
  eval (check_rate_limit (seconds 1) "u2" "flash_buy" 10 60) s'
    = eval (check_rate_limit (seconds 1) "u2" "flash_buy" 10 60) (seeded 2).
Proof.
  assert (u_id bob ≠ u_id alice) as Hother by discriminate.
  split; [exact Hother|].
  exact (purchase_leaves_other_quotas 0 0 0 (seconds 1) "o1" (buy 1) alice bob (seeded 2)
           Hother).
Defined.

Lemma failed_purchase_counts_witness :
  eval (flash_buy 0 0 0 "o1" (buy 3) alice) (seeded 2) = Raise OutOfStock ∧
  redis (exec (flash_buy 0 0 0 "o1" (buy 3) alice) (seeded 2)) !! rate_key "u1" "flash_buy"
    = Some (mkEntry (RInt (read_int 0 (rate_key "u1" "flash_buy") (seeded 2) + 1))
                    (Some (0 + window_usec 60))).
Proof.
  split; [reflexivity|].
  exact (failed_purchase_counts 0 0 0 "o1" (buy 3) alice (seeded 2) OutOfStock eq_refl
           (or_intror eq_refl)).
Defined.

Lemma get_products_shows_live_stock_witness :
  String.prefix "product:" "product:prod_1" = true ∧
  is_Some (lookup_live 0 "product:prod_1" (redis (seeded 2))) ∧
  eval (get_products 0) (seeded 2) = Ok [with_stock 2 headphones] ∧
  exec (get_products 0) (seeded 2) = seeded 2 ∧
  ∀ p', p' ∈ [with_stock 2 headphones] ↔
    ∃ key product d,
      String.prefix "product:" key = true ∧
      lookup_live 0 key (redis (seeded 2)) = Some (mkEntry (RJson product) d) ∧
      p' = with_stock (stock_count 0 (p_id product) (seeded 2)) product.
Proof.
  assert (is_Some (lookup_live 0 "product:prod_1" (redis (seeded 2)))) as Hlive
    by exact (ex_intro _ _ eq_refl).
  assert (eval (get_products 0) (seeded 2) = Ok [with_stock 2 headphones]) as Hlisted
    by (vm_compute; reflexivity).
  split; [reflexivity|]. split; [exact Hlive|]. split; [exact Hlisted|].
  exact (get_products_shows_live_stock 0 (seeded 2) [with_stock 2 headphones]
           "product:prod_1" eq_refl Hlive Hlisted).
Defined.

Lemma get_products_seeds_empty_catalogue_witness :
  (∀ key, String.prefix "product:" key = true →
          lookup_live 0 key (redis Samples.empty_shop) = None) ∧
  exec (get_products 0) Samples.empty_shop = exec initialize_products Samples.empty_shop ∧
  ∃ listed, eval (get_products 0) Samples.empty_shop = Ok listed ∧
            ∀ p, p ∈ listed ↔ p ∈ products.
Proof.
  assert (∀ key, String.prefix "product:" key = true →
                 lookup_live 0 key (redis Samples.empty_shop) = None) as Hempty
    by (intros key _; reflexivity).
  split; [exact Hempty|].
  exact (get_products_seeds_empty_catalogue 0 Samples.empty_shop Hempty).
Defined.

(** ** Pagination *)


Lemma pages_partition_results_witness :
  paginate_query Samples.numbers Z.odd 2 2 = Ok (mkPage [5; 7] 2 2 5 3 true true) ∧
  mjoin ((λ i, page_items Samples.numbers Z.odd (Z.of_nat i) 2) <$> seq 1 (Z.to_nat 3))
    = List.filter Z.odd Samples.numbers.
Proof.
  split; [reflexivity|].
  exact (pages_partition_results Samples.numbers Z.odd 2 2
           (mkPage [5; 7] 2 2 5 3 true true) eq_refl).
Defined.

(** ** Accounts *)

Lemma signup_keeps_emails_unique_witness :
  let signed_up :=
    signup Samples.hashpw Samples.create_jwt_token 5 "u2" () Samples.bob_signup
           Samples.registered in
  NoDup (ud_email <$> Samples.registered) ∧
  NoDup (ud_email <$> signed_up.2) ∧
  ud_email <$> signed_up.2 = ["alice@example.com"; "bob@example.com"].
Proof.
  assert (NoDup (ud_email <$> Samples.registered)) as Hnd by apply NoDup_singleton.
  pose proof (signup_keeps_emails_unique Samples.hashpw Samples.create_jwt_token
                5 "u2" () Samples.bob_signup Samples.registered Hnd) as (Hunique & _ & Hadd).
  split; [exact Hnd|]. split; [exact Hunique|].
  apply Hadd. vm_compute. intros Hin. apply list_elem_of_singleton in Hin. discriminate.
Defined.

Lemma signup_then_login_witness :
  let signed_up :=
    signup Samples.hashpw Samples.create_jwt_token 5 "u2" () Samples.bob_signup
           Samples.registered in
  (∀ salt password, Samples.checkpw password (Samples.hashpw salt password) = true) ∧
  login Samples.checkpw Samples.create_jwt_token 9
        (mkUserLogin "bob@example.com" "builder") signed_up.2
    = (inr (mkSession "u2/bob@example.com" (mkUser "u2" "bob@example.com" "Bob")),
       signed_up.2) ∧
  login Samples.checkpw Samples.create_jwt_token 9
        (mkUserLogin "bob@example.com" "wonderland") signed_up.2
    = (inl InvalidCredentials, signed_up.2).
Proof.
  assert (∀ salt password, Samples.checkpw password (Samples.hashpw salt password) = true)
    as Hbcrypt by (intros salt password; apply bool_decide_eq_true_2; reflexivity).
  pose proof (signup_then_login Samples.hashpw Samples.checkpw Samples.create_jwt_token
                5 9 "u2" () Samples.bob_signup Samples.registered _ _ Hbcrypt eq_refl)
    as [Hlogin Hwrong].
  split; [exact Hbcrypt|]. split; [exact Hlogin|].
  apply Hwrong. reflexivity.
Defined.

(** ** Search *)

#[local] Existing Instance Samples.no_order.

Lemma search_products_respects_filters_witness :
  eval (search_products (λ text, text) 0 Samples.wireless) (seeded 2)
    = Ok (mkSearchResult [with_stock 2 headphones] 1 (Some "Wireless")) ∧
  Forall (λ product, p_flash_sale product = true) [with_stock 2 headphones] ∧
  eval (search_products (λ text, text) 0
          (mkSearchQuery (Some "Wireless") (Some "audio") None None true)) (seeded 2)
    = Ok (mkSearchResult [] 0 (Some "Wireless")).
Proof.
  pose proof (search_products_respects_filters (λ text, text) 0 Samples.wireless (seeded 2)
                _ eq_refl) as (_ & _ & Hall & _).
  split; [reflexivity|]. split.
  - eapply Forall_impl; [exact Hall|]. intros product (_ & _ & _ & Hflash).
    exact (Hflash eq_refl).
  - reflexivity.
Defined.

(** ** Subscriptions *)

Lemma unsubscribe_undoes_subscribe_witness :
  let s' := WebSocket.unsubscribe_product "c1" (Some "prod_1")
              (WebSocket.subscribe_product "c1" (Some "prod_1") Samples.one_client) in
  WebSocket.connected_clients Samples.one_client !! "c1" = Some (WebSocket.mkClient None []) ∧
  "prod_1" ≠ "" ∧
  WebSocket.connected_clients s' = WebSocket.connected_clients Samples.one_client ∧
  WebSocket.rooms s' = WebSocket.rooms Samples.one_client.
Proof.
  assert ("prod_1" ≠ "") as Hne by discriminate.
  pose proof (WebSocketProperties.unsubscribe_undoes_subscribe "c1" "prod_1"
                (WebSocket.mkClient None []) Samples.one_client eq_refl Hne
                (not_elem_of_nil _)) as [Hclients Hrooms].
  split; [reflexivity|]. split; [exact Hne|]. split; [exact Hclients|].
  apply Hrooms. apply not_elem_of_empty.
Defined.

Lemma double_subscription_outlives_unsubscribe_witness :
  let s' := WebSocket.unsubscribe_product "c1" (Some "prod_1")
              (WebSocket.subscribe_product "c1" (Some "prod_1")
                 (WebSocket.subscribe_product "c1" (Some "prod_1") Samples.one_client)) in
  "prod_1" ≠ "" ∧
  "prod_1" ∈ WebSocket.subscribed s' "c1" ∧
  (WebSocket.product_room "prod_1", "c1") ∉ WebSocket.rooms s'.
Proof.
  assert ("prod_1" ≠ "") as Hne by discriminate.
  split; [exact Hne|].
  exact (WebSocketProperties.double_subscription_outlives_unsubscribe "c1" "prod_1"
           (WebSocket.mkClient None []) Samples.one_client eq_refl Hne).
Defined.

